(** * NordLayer Telegram bot: routing, validation and listing properties

    A shallow embedding of [telegram-bot/main.py] (class [TelegramBot]).
    Handlers are state transformers over the bot object and the per-chat
    [context.user_data] dictionary; everything a handler sends out (replies,
    upstream API calls, calls into the order handlers, error reports) is
    recorded in an event trace.

    Python [str] values that come from users or from the upstream API are
    sequences of Unicode code points ([list N]); string constants of the
    program itself (dictionary keys, mode names, error kinds) are Rocq
    strings.  Message texts are represented by their intent, not by their
    wording. *)

From Stdlib Require Import ZArith NArith List String Ascii Lia Bool.
From Stdlib Require Import Sorting.Sorted Sorting.Permutation.
From stdpp Require Import base option list gmap strings.

Open Scope Z_scope.

(* ================================================================== *)
(** ** Python strings *)
(* ================================================================== *)

Module PyStr.

(** A code point. *)
Abbreviation char := N (only parsing).
Abbreviation pystr := (list N) (only parsing).

(** An ASCII literal of the program as a Python string. *)
Definition lit (s : string) : pystr :=
  map N_of_ascii (list_ascii_of_string s).

Definition in_range (lo hi c : N) : bool := ((lo <=? c) && (c <=? hi))%N.

(** [str.isspace] on one code point: the characters [str.strip()] removes. *)
Definition isspace (c : N) : bool :=
  in_range 9 13 c || in_range 28 32 c || (c =? 133)%N || (c =? 160)%N
  || (c =? 5760)%N || in_range 8192 8202 c || (c =? 8232)%N || (c =? 8233)%N
  || (c =? 8239)%N || (c =? 8287)%N || (c =? 12288)%N.

Fixpoint lstrip (s : pystr) : pystr :=
  match s with
  | c :: s' => if isspace c then lstrip s' else s
  | [] => []
  end.

Definition rstrip (s : pystr) : pystr := rev (lstrip (rev s)).

(** [s.strip()] *)
Definition strip (s : pystr) : pystr := rstrip (lstrip s).

(** [s.lower()], on the ASCII letters.  The only non-ASCII code points
    whose lowercase form contains an ASCII letter are U+0130 (to [i]) and
    U+212A (to [k]); neither letter occurs in the file extensions tested
    below, so suffix tests against those extensions are not affected. *)
Definition lower_char (c : N) : N :=
  if in_range 65 90 c then (c + 32)%N else c.

Definition lower (s : pystr) : pystr := map lower_char s.

Definition eqb (a b : pystr) : bool := bool_decide (a = b).

(** [s.endswith(suffix)] *)
Definition endswith (s suffix : pystr) : bool :=
  eqb (drop (length s - length suffix) s) suffix
  && (length suffix <=? length s)%nat.

(** [s.endswith((x, y, ...))] with a tuple of suffixes. *)
Definition endswith_any (s : pystr) (suffixes : list pystr) : bool :=
  existsb (endswith s) suffixes.

(** Lexicographic comparison by code point: Python's [<] on [str]. *)
Fixpoint compare (a b : pystr) : comparison :=
  match a, b with
  | [], [] => Eq
  | [], _ :: _ => Lt
  | _ :: _, [] => Gt
  | x :: a', y :: b' =>
      match (x ?= y)%N with
      | Eq => compare a' b'
      | c => c
      end
  end.

Definition ltb (a b : pystr) : bool :=
  match compare a b with Lt => true | _ => false end.

(** [a >= b] *)
Definition ge (a b : pystr) : Prop := compare a b <> Lt.

(** Truthiness of an optional string: [None] and [''] are falsy. *)
Definition truthy (o : option pystr) : bool :=
  match o with
  | Some (_ :: _) => true
  | _ => false
  end.

End PyStr.

Import PyStr.

(* ================================================================== *)
(** ** Regular expressions, as used by [re.match] *)
(* ================================================================== *)

Module Regex.

Inductive regex : Type :=
| Void : regex
| Eps : regex
| Class : (N -> bool) -> regex
| Seq : regex -> regex -> regex
| Alt : regex -> regex -> regex
| Star : regex -> regex.

(** [r+] and [r{2,}] *)
Definition Plus (r : regex) : regex := Seq r (Star r).
Definition AtLeast2 (r : regex) : regex := Seq r (Seq r (Star r)).

Fixpoint nullable (r : regex) : bool :=
  match r with
  | Void => false
  | Eps => true
  | Class _ => false
  | Seq a b => nullable a && nullable b
  | Alt a b => nullable a || nullable b
  | Star _ => true
  end.

(** Brzozowski derivative of [r] by the code point [c]. *)
Fixpoint deriv (c : N) (r : regex) : regex :=
  match r with
  | Void => Void
  | Eps => Void
  | Class p => if p c then Eps else Void
  | Seq a b =>
      if nullable a then Alt (Seq (deriv c a) b) (deriv c b)
      else Seq (deriv c a) b
  | Alt a b => Alt (deriv c a) (deriv c b)
  | Star a => Seq (deriv c a) (Star a)
  end.

(** Does the whole of [s] belong to the language of [r]? *)
Fixpoint matches (r : regex) (s : pystr) : bool :=
  match s with
  | [] => nullable r
  | c :: s' => matches (deriv c r) s'
  end.

(** The anchor [$] (without MULTILINE) holds at the end of the string and
    just before a newline that ends the string. *)
Definition Dollar : regex := Alt Eps (Class (N.eqb 10)).

(** [bool(re.match('^' + r + '$', s))]: backtracking finds a match
    whenever one exists, so the result is membership of [s] in the
    language of the anchored pattern. *)
Definition re_match_anchored (r : regex) (s : pystr) : bool :=
  matches (Seq r Dollar) s.

(** The denotation of a regex, to state what [matches] decides. *)
Inductive lang : regex -> pystr -> Prop :=
| LEps : lang Eps []
| LClass p c : p c = true -> lang (Class p) [c]
| LSeq a b s t : lang a s -> lang b t -> lang (Seq a b) (s ++ t)
| LAltL a b s : lang a s -> lang (Alt a b) s
| LAltR a b s : lang b s -> lang (Alt a b) s
| LStarNil a : lang (Star a) []
| LStarCons a s t : lang a s -> lang (Star a) t -> lang (Star a) (s ++ t).

End Regex.

Import Regex.

(* ================================================================== *)
(** ** [_validate_email] *)
(* ================================================================== *)

Definition is_alpha (c : N) : bool := in_range 97 122 c || in_range 65 90 c.
Definition is_digit (c : N) : bool := in_range 48 57 c.

(** [[a-zA-Z0-9._%+-]] *)
Definition local_char (c : N) : bool :=
  is_alpha c || is_digit c
  || (c =? 46)%N || (c =? 95)%N || (c =? 37)%N || (c =? 43)%N || (c =? 45)%N.

(** [[a-zA-Z0-9.-]] *)
Definition domain_char (c : N) : bool :=
  is_alpha c || is_digit c || (c =? 46)%N || (c =? 45)%N.

(** [[a-zA-Z0-9._%+-]+@[a-zA-Z0-9.-]+\.[a-zA-Z]{2,}] *)
Definition email_pattern : regex :=
  Seq (Plus (Class local_char))
    (Seq (Class (N.eqb 64))
       (Seq (Plus (Class domain_char))
          (Seq (Class (N.eqb 46))
             (AtLeast2 (Class is_alpha))))).

Definition _validate_email (email : pystr) : bool :=
  match email with
  | [] => false
  | _ => re_match_anchored email_pattern (strip email)
  end.

(* ================================================================== *)
(** ** Data model *)
(* ================================================================== *)

(** Modelled from the spec: the enumeration [OrderStep] of
    [session_manager.py], which is not part of the sources; [main.py] names
    every member but [SUBMITTED]. *)
Inductive OrderStep : Type :=
| SERVICE_SELECTION
| CONTACT_INFO
| FILE_UPLOAD
| SPECIFICATIONS
| DELIVERY
| CONFIRMATION
| SUBMITTED.

#[export] Instance OrderStep_eq_dec : EqDecision OrderStep.
Proof. solve_decision. Defined.

Record FileRef : Type := mkFileRef {
  file_ref_name : pystr;
  file_ref_size : Z;
  file_ref_id : pystr
}.

Record Specifications : Type := mkSpecifications {
  material : option pystr;
  quality : option pystr;
  infill : option pystr
}.

(** Modelled from the spec: the [OrderSession] objects kept by
    [session_manager.py].  [customer_phone] is three-valued: [None] (not
    asked yet), [Some []] (skipped) or a number. *)
Record OrderSession : Type := mkOrderSession {
  user_id : Z;
  step : OrderStep;
  service_id : option Z;
  customer_name : option pystr;
  customer_email : option pystr;
  customer_phone : option pystr;
  uploaded_files : list FileRef;
  specifications : Specifications;
  delivery_needed : bool;
  delivery_address : option pystr;
  created_at : Z;
  updated_at : Z
}.

Definition set_step (st : OrderStep) (s : OrderSession) : OrderSession :=
  {| user_id := user_id s; step := st; service_id := service_id s;
     customer_name := customer_name s; customer_email := customer_email s;
     customer_phone := customer_phone s; uploaded_files := uploaded_files s;
     specifications := specifications s; delivery_needed := delivery_needed s;
     delivery_address := delivery_address s; created_at := created_at s;
     updated_at := updated_at s |}.

(** Modelled from the spec: a [Subscription] record of the subscription
    manager in [notification_service.py], which is not part of the sources. *)
Record Subscription : Type := mkSubscription {
  sub_user_id : Z;
  email : pystr;
  notification_types : gset string;
  is_active : bool;
  subscribed_at : Z
}.

(** A service of the upstream listing, a JSON object read with [.get]:
    [None] stands for an absent key. *)
Record Service : Type := mkService {
  svc_id : option Z;
  svc_name : option pystr;
  svc_description : option pystr;
  svc_category : option pystr;
  svc_features : list pystr
}.

(** An order of the upstream tracking lookup, read with [.get].  The
    values of [created_at] are strings, as the listing takes them to be
    ([created_at[:10]], ['T' in created_at]). *)
Record Order : Type := mkOrder {
  order_id : option Z;
  order_status : option pystr;
  order_service_name : option pystr;
  order_created_at : option pystr
}.

(** [update.message.document] *)
Record Document : Type := mkDocument {
  file_name : option pystr;
  file_size : option Z
}.

(* ================================================================== *)
(** ** Session store and subscription manager *)
(* ================================================================== *)

Module SessionManager.

(** Modelled from the spec: [SessionManager.get_session], the store's
    [get(user_id) -> OrderSession?]. *)
Definition get_session (sessions : gmap Z OrderSession) (uid : Z)
  : option OrderSession :=
  sessions !! uid.

(** Modelled from the spec: [SessionManager.clear_session], the store's
    [clear(user_id) -> bool], true iff a session existed. *)
Definition clear_session (sessions : gmap Z OrderSession) (uid : Z)
  : bool * gmap Z OrderSession :=
  (bool_decide (is_Some (sessions !! uid)), delete uid sessions).

(** Modelled from the spec: the store's [update(user_id, mutator)], a
    read-modify-write of one user's session. *)
Definition update_session (sessions : gmap Z OrderSession) (uid : Z)
    (mutator : OrderSession -> OrderSession) : gmap Z OrderSession :=
  alter mutator uid sessions.

End SessionManager.

Module SubscriptionManager.

(** Modelled from the spec: [get(user_id) -> Subscription?]. *)
Definition get_subscription (subs : gmap Z Subscription) (uid : Z)
  : option Subscription :=
  subs !! uid.

(** Modelled from the spec: [subscribe(user_id, email, types) -> bool].
    The record is created on the first subscribe; for a user who has one
    already, active or not, email and types are updated in place and the
    record is (re)activated. *)
Definition subscribe_user (subs : gmap Z Subscription) (now : Z) (uid : Z)
    (e : pystr) (types : gset string) : bool * gmap Z Subscription :=
  match subs !! uid with
  | Some old =>
      (true, <[uid := {| sub_user_id := uid; email := e;
                         notification_types := types; is_active := true;
                         subscribed_at := subscribed_at old |}]> subs)
  | None =>
      (true, <[uid := {| sub_user_id := uid; email := e;
                         notification_types := types; is_active := true;
                         subscribed_at := now |}]> subs)
  end.

(** Modelled from the spec: [unsubscribe(user_id) -> bool], false if not
    currently active; the record is kept with [is_active] cleared. *)
Definition unsubscribe_user (subs : gmap Z Subscription) (uid : Z)
  : bool * gmap Z Subscription :=
  match subs !! uid with
  | Some old =>
      if is_active old then
        (true, <[uid := {| sub_user_id := uid; email := email old;
                           notification_types := notification_types old;
                           is_active := false;
                           subscribed_at := subscribed_at old |}]> subs)
      else (false, subs)
  | None => (false, subs)
  end.

End SubscriptionManager.

(* ================================================================== *)
(** ** What a handler sends out *)
(* ================================================================== *)

(** Inline keyboard buttons, named by their [callback_data]. *)
Inductive Button : Type :=
| BtnStartOrder
| BtnShowServices
| BtnTrackOrder
| BtnNotificationsMenu
| BtnHelp
| BtnMainMenu
| BtnSelectService (label : pystr) (id : Z)
| BtnPrevPage (target : Z)
| BtnNextPage (target : Z)
| BtnOrderService (id : Z)
| BtnCancelTracking
| BtnCancelSubscription
| BtnOrderDetails (id : option Z)
| BtnSubscribeNotifications
| BtnUnsubscribeNotifications.

Abbreviation Keyboard := (list (list Button)) (only parsing).

Inductive StepHint : Type :=
| HintSelectService
| HintSendFile
| HintSpecButtons
| HintConfirmButtons
| HintUseButtons.

Record CatalogEntry : Type := mkCatalogEntry {
  entry_number : Z;
  entry_name : pystr;
  entry_description : pystr
}.

Record OrderEntry : Type := mkOrderEntry {
  order_number : Z;
  order_shown : Order
}.

(** Outbound texts, by intent. *)
Inductive Message : Type :=
| MsgContactInfoCollected
| MsgStepHint (h : StepHint)
| MsgNoSession
| MsgFileReceived (name : pystr) (size : Z)
| MsgCancelled
| MsgNothingToCancel
| MsgCatalogUnavailable
| MsgCatalog (entries : list CatalogEntry) (page_info : option (Z * Z))
| MsgServiceNotFound
| MsgServiceDetails (name description category : pystr) (features : list pystr)
| MsgMainMenu
| MsgNotificationsUnavailable
| MsgAlreadySubscribed (e : pystr) (types : gset string)
| MsgSubscribePrompt
| MsgNotSubscribed
| MsgUnsubscribed
| MsgUnsubscribeFailed
| MsgInvalidEmail
| MsgSubscriptionActivated (e : pystr)
| MsgSubscribeFailed
| MsgTrackingPrompt
| MsgSearchingOrders
| MsgOrdersNotFound (e : pystr)
| MsgOrdersList (total : Z) (e : pystr) (entries : list OrderEntry)
    (more : option Z)
| MsgOrderSubmitted (ref : Z)
| MsgOrderSubmissionFailed
| MsgOrdersUnavailable
| MsgOrderDetails (id : Z)
| MsgNotificationsMenu (subscribed : option Subscription)
| MsgHelp
| MsgUnknownCommand
| MsgUnexpectedError.

(** Calls into [OrderHandlers] ([order_handlers.py], not part of the
    sources): recorded, not interpreted. *)
Inductive OrderHandlerCall : Type :=
| start_order_process
| order_handle_service_selection (id : Z)
| cancel_order
| skip_phone_step
| continue_with_files
| handle_material_selection (m : pystr)
| handle_quality_selection (q : pystr)
| handle_infill_selection (i : pystr)
| handle_delivery_pickup
| handle_delivery_shipping
| show_edit_menu
| back_to_services
| back_to_contacts
| back_to_files
| back_to_specs
| back_to_delivery
| back_to_confirmation
| remove_last_file
| back_to_material
| back_to_quality
| handle_contact_name (text : pystr)
| handle_contact_email (text : pystr)
| handle_contact_phone (text : pystr)
| handle_delivery_address (text : pystr)
| handle_file_upload.

Inductive ApiCall : Type :=
| GetServices (active_only : bool)
| GetOrdersByEmail (e : pystr)
| SubmitOrder (payload : OrderSession).

Inductive Event : Type :=
| EReply (m : Message) (kb : option Keyboard)
| EEdit (m : Message) (kb : option Keyboard)
| EDeleteMessage
| EAnswerCallback
| EApi (c : ApiCall)
| EOrderHandlers (c : OrderHandlerCall)
| EFileError (kind : string) (filename : option pystr)
| EApiError (operation : string).

Inductive Exn : Type :=
| APIClientError
| TypeError
| AttributeError.

(* ================================================================== *)
(** ** The bot object and the handler monad *)
(* ================================================================== *)

(** The upstream API as seen through [api_client]: what each call returns,
    [None] when it raises [APIClientError]. *)
Record APIClient : Type := mkAPIClient {
  get_services : bool -> option (list Service);
  get_orders_by_email : pystr -> option (list Order);
  submit_order : OrderSession -> option Z
}.

Record NotificationService : Type := mkNotificationService {
  subscription_manager : gmap Z Subscription
}.

Record TelegramBot : Type := mkTelegramBot {
  api_client : option APIClient;
  session_manager : gmap Z OrderSession;
  order_handlers : bool;
  notification_service : option NotificationService
}.

(** The state a handler runs in: the bot, the [context.user_data] of the
    chat, and the wall clock. *)
Record World : Type := mkWorld {
  bot : TelegramBot;
  user_data : gmap string string;
  now : Z
}.

(** Which kind of update a handler was called for: [update.message] is set
    for the first, [update.callback_query] for the second. *)
Inductive Update : Type :=
| MessageUpdate
| CallbackUpdate.

Definition M (A : Type) : Type := World -> (Exn + A) * World * list Event.

#[export] Instance M_ret : MRet M := fun A a w => (inr a, w, []).

#[export] Instance M_bind : MBind M := fun A B k m w =>
  match m w with
  | (inl e, w', t) => (inl e, w', t)
  | (inr a, w', t) =>
      match k a w' with
      | (r, w'', t') => (r, w'', t ++ t')
      end
  end.

Definition raise {A : Type} (e : Exn) : M A := fun w => (inl e, w, []).

(** [try: body / except Exception: handler] *)
Definition try_except {A : Type} (body : M A) (handler : Exn -> M A) : M A :=
  fun w =>
    match body w with
    | (inl e, w', t) =>
        match handler e w' with
        | (r, w'', t') => (r, w'', t ++ t')
        end
    | ok => ok
    end.

Definition emit (e : Event) : M unit := fun w => (inr tt, w, [e]).
Definition get_world : M World := fun w => (inr w, w, []).
Definition get_bot : M TelegramBot := fun w => (inr (bot w), w, []).
Definition get_user_data : M (gmap string string) :=
  fun w => (inr (user_data w), w, []).

Definition set_session_manager (sm : gmap Z OrderSession) : M unit :=
  fun w =>
    (inr tt,
     {| bot := {| api_client := api_client (bot w); session_manager := sm;
                  order_handlers := order_handlers (bot w);
                  notification_service := notification_service (bot w) |};
        user_data := user_data w; now := now w |}, []).

Definition set_subscription_manager (subs : gmap Z Subscription) : M unit :=
  fun w =>
    (inr tt,
     {| bot := {| api_client := api_client (bot w);
                  session_manager := session_manager (bot w);
                  order_handlers := order_handlers (bot w);
                  notification_service :=
                    Some {| subscription_manager := subs |} |};
        user_data := user_data w; now := now w |}, []).

Definition set_user_data (ud : gmap string string) : M unit :=
  fun w => (inr tt, {| bot := bot w; user_data := ud; now := now w |}, []).

(** [context.user_data[key] = value] and [context.user_data.pop(key, None)] *)
Definition user_data_set (key value : string) : M unit :=
  ud ← get_user_data; set_user_data (<[key := value]> ud).

Definition user_data_pop (key : string) : M unit :=
  ud ← get_user_data; set_user_data (delete key ud).

(** The world and the trace a handler leaves behind. *)
Definition world_after {A : Type} (m : M A) (w : World) : World := (m w).1.2.
Definition events {A : Type} (m : M A) (w : World) : list Event := (m w).2.
Definition result {A : Type} (m : M A) (w : World) : Exn + A := (m w).1.1.

(** [update.message.reply_text(...)]: [update.message] is [None] on a
    callback update. *)
Definition reply_text (u : Update) (m : Message) (kb : option Keyboard)
  : M unit :=
  match u with
  | MessageUpdate => emit (EReply m kb)
  | CallbackUpdate => raise AttributeError
  end.

(** [update.callback_query.message.reply_text(...)] *)
Definition query_reply_text (u : Update) (m : Message) (kb : option Keyboard)
  : M unit :=
  match u with
  | CallbackUpdate => emit (EReply m kb)
  | MessageUpdate => raise AttributeError
  end.

Definition _send_or_edit_message (u : Update) (m : Message)
    (kb : option Keyboard) : M unit :=
  match u with
  | CallbackUpdate => emit (EEdit m kb)
  | MessageUpdate => emit (EReply m kb)
  end.

(** [BotErrorHandler] ([error_handler.py], not part of the sources): its
    static methods get no access to the bot object; they are recorded. *)
Definition handle_api_error (operation : string) : M unit :=
  emit (EApiError operation).

Definition handle_file_error (kind : string) (filename : option pystr)
  : M unit :=
  emit (EFileError kind filename).

(** [self.api_client.get_services(active_only=True)] after the guard
    [if not self.api_client: raise APIClientError(...)]. *)
Definition fetch_services : M (list Service) :=
  b ← get_bot;
  match api_client b with
  | None => raise APIClientError
  | Some api =>
      emit (EApi (GetServices true));;
      match get_services api true with
      | None => raise APIClientError
      | Some services => mret services
      end
  end.

Definition fetch_orders_by_email (e : pystr) : M (list Order) :=
  b ← get_bot;
  match api_client b with
  | None => raise APIClientError
  | Some api =>
      emit (EApi (GetOrdersByEmail e));;
      match get_orders_by_email api e with
      | None => raise APIClientError
      | Some orders => mret orders
      end
  end.

(* ================================================================== *)
(** ** List helpers of the Python runtime *)
(* ================================================================== *)

(** An index of a slice, clamped as Python does: negative indices count
    from the end. *)
Definition slice_index (n i : Z) : Z :=
  if i <? 0 then Z.max (i + n) 0 else Z.min i n.

(** [l[start:stop]] *)
Definition py_slice {A : Type} (l : list A) (start stop : Z) : list A :=
  let n := Z.of_nat (length l) in
  let a := slice_index n start in
  let b := slice_index n stop in
  take (Z.to_nat (b - a)) (drop (Z.to_nat a) l).

(** [sorted(l, key=key, reverse=True)] on string keys: descending, and
    stable (elements with equal keys keep their order). *)
Fixpoint insert_desc {A : Type} (key : A -> pystr) (x : A) (l : list A)
  : list A :=
  match l with
  | [] => [x]
  | y :: l' =>
      if PyStr.ltb (key x) (key y) then y :: insert_desc key x l'
      else x :: y :: l'
  end.

Definition sorted_reverse {A : Type} (key : A -> pystr) (l : list A)
  : list A :=
  foldr (insert_desc key) [] l.

(** [truthy] for an optional integer: [None] and [0] are falsy. *)
Definition truthy_int (o : option Z) : bool :=
  match o with
  | Some z => negb (z =? 0)
  | None => false
  end.

(* ================================================================== *)
(** ** Services catalog *)
(* ================================================================== *)

Definition services_per_page : Z := 5.

Definition ellipsis : pystr := lit "...".

(** The default texts ['Без названия'], ['Услуга'],
    ['Описание отсутствует'] and ['Общие'], as code points. *)
Definition untitled : pystr :=
  [1041; 1077; 1079; 32; 1085; 1072; 1079; 1074; 1072; 1085; 1080; 1103]%N.
Definition service_word : pystr := [1059; 1089; 1083; 1091; 1075; 1072]%N.
Definition no_description : pystr :=
  [1054; 1087; 1080; 1089; 1072; 1085; 1080; 1077; 32; 1086; 1090; 1089;
   1091; 1090; 1089; 1090; 1074; 1091; 1077; 1090]%N.
Definition general_category : pystr := [1054; 1073; 1097; 1080; 1077]%N.

(** The description shown in the listing, cut to 77 characters and an
    ellipsis when longer than 80; empty when there is none. *)
Definition description_preview (d : option pystr) : pystr :=
  match d with
  | Some d =>
      if truthy (Some d) && (80 <? Z.of_nat (length d))
      then take 77 d ++ ellipsis else d
  | None => []
  end.

(** The listing lines: [enumerate(page_services, start=i)]. *)
Fixpoint catalog_entries (i : Z) (page_services : list Service)
  : list CatalogEntry :=
  match page_services with
  | [] => []
  | s :: rest =>
      {| entry_number := i;
         entry_name := default untitled (svc_name s);
         entry_description := description_preview (svc_description s) |}
      :: catalog_entries (i + 1) rest
  end.

Definition button_text (name : pystr) : pystr :=
  if (Z.of_nat (length name) <=? 30) then name else take 27 name ++ ellipsis.

(** The start of a service button's label, the shopping bags sign (U+1F6CD,
    U+FE0F) and a space, as code points. *)
Definition shopping_bags : pystr := [128717; 65039; 32]%N.

(** One row per service with a truthy id, labelled
    [f"<shopping bags> {button_text}"]. *)
Fixpoint service_buttons (page_services : list Service) : list (list Button) :=
  match page_services with
  | [] => []
  | s :: rest =>
      match svc_id s with
      | Some id =>
          if truthy_int (Some id)
          then [BtnSelectService
                  (shopping_bags
                   ++ button_text (default service_word (svc_name s))) id]
               :: service_buttons rest
          else service_buttons rest
      | None => service_buttons rest
      end
  end.

Definition total_pages_of (total_services : Z) : Z :=
  (total_services + services_per_page - 1) / services_per_page.

Definition page_services_of (services : list Service) (page : Z)
  : list Service :=
  let total_services := Z.of_nat (length services) in
  let start_idx := page * services_per_page in
  let end_idx := Z.min (start_idx + services_per_page) total_services in
  py_slice services start_idx end_idx.

Definition pagination_row (page total_pages : Z) : list Button :=
  (if 0 <? page then [BtnPrevPage (page - 1)] else [])
  ++ (if page <? total_pages - 1 then [BtnNextPage (page + 1)] else []).

Definition catalog_message (services : list Service) (page : Z) : Message :=
  let total_pages := total_pages_of (Z.of_nat (length services)) in
  let start_idx := page * services_per_page in
  MsgCatalog
    (catalog_entries (start_idx + 1) (page_services_of services page))
    (if 1 <? total_pages then Some (page + 1, total_pages) else None).

Definition catalog_keyboard (services : list Service) (page : Z)
  : list (list Button) :=
  let total_pages := total_pages_of (Z.of_nat (length services)) in
  let row := pagination_row page total_pages in
  service_buttons (page_services_of services page)
  ++ (match row with [] => [] | _ => [row] end)
  ++ [[BtnMainMenu]].

Definition show_services_catalog (u : Update) (page : Z) : M unit :=
  try_except
    (services ← fetch_services;
     match services with
     | [] => _send_or_edit_message u MsgCatalogUnavailable None
     | _ =>
         _send_or_edit_message u (catalog_message services page)
           (Some (catalog_keyboard services page))
     end)
    (fun e =>
       match e with
       | APIClientError => handle_api_error "fetching services"
       | _ => handle_api_error "showing services catalog"
       end).

Definition services_command : M unit :=
  show_services_catalog MessageUpdate 0.

(** [next((s for s in services if s.get('id') == service_id), None)] *)
Definition find_service (services : list Service) (service_id : Z)
  : option Service :=
  List.find (fun s => bool_decide (svc_id s = Some service_id)) services.

Definition service_details_keyboard (service_id : Z) : list (list Button) :=
  [[BtnOrderService service_id]; [BtnShowServices]; [BtnMainMenu]].

Definition handle_service_selection (u : Update) (service_id : Z) : M unit :=
  try_except
    (services ← fetch_services;
     match find_service services service_id with
     | None => query_reply_text u MsgServiceNotFound None
     | Some selected_service =>
         _send_or_edit_message u
           (MsgServiceDetails
              (default untitled (svc_name selected_service))
              (default no_description (svc_description selected_service))
              (default general_category (svc_category selected_service))
              (svc_features selected_service))
           (Some (service_details_keyboard service_id))
     end)
    (fun e =>
       match e with
       | APIClientError => handle_api_error "fetching service details"
       | _ => handle_api_error "handling service selection"
       end).

(* ================================================================== *)
(** ** Commands and message handlers *)
(* ================================================================== *)

Definition main_menu_keyboard : list (list Button) :=
  [[BtnStartOrder]; [BtnShowServices]; [BtnTrackOrder];
   [BtnNotificationsMenu]; [BtnHelp]].

Definition show_main_menu (u : Update) : M unit :=
  _send_or_edit_message u MsgMainMenu (Some main_menu_keyboard).

(** The global error handler, which the application runs for an exception
    that escapes a handler. *)
Definition error_handler : M unit :=
  emit (EReply MsgUnexpectedError None).

Definition cancel_command (uid : Z) : M unit :=
  b ← get_bot;
  let '(session_cleared, sessions) :=
    SessionManager.clear_session (session_manager b) uid in
  set_session_manager sessions;;
  reply_text MessageUpdate
    (if session_cleared then MsgCancelled else MsgNothingToCancel) None.

Definition waiting_for_email : string := "waiting_for_email".

Definition subscription_keyboard : list (list Button) :=
  [[BtnCancelSubscription]; [BtnMainMenu]].

Definition subscribe_command (u : Update) (uid : Z) : M unit :=
  b ← get_bot;
  match notification_service b with
  | None => reply_text u MsgNotificationsUnavailable None
  | Some ns =>
      let subscription :=
        SubscriptionManager.get_subscription (subscription_manager ns) uid in
      match subscription with
      | Some sub =>
          if is_active sub then
            reply_text u
              (MsgAlreadySubscribed (email sub) (notification_types sub)) None
          else
            user_data_set "subscription_state" waiting_for_email;;
            reply_text u MsgSubscribePrompt (Some subscription_keyboard)
      | None =>
          user_data_set "subscription_state" waiting_for_email;;
          reply_text u MsgSubscribePrompt (Some subscription_keyboard)
      end
  end.

Definition unsubscribe_command (u : Update) (uid : Z) : M unit :=
  b ← get_bot;
  match notification_service b with
  | None => reply_text u MsgNotificationsUnavailable None
  | Some ns =>
      let subs := subscription_manager ns in
      match SubscriptionManager.get_subscription subs uid with
      | Some sub =>
          if is_active sub then
            let '(success, subs') :=
              SubscriptionManager.unsubscribe_user subs uid in
            set_subscription_manager subs';;
            reply_text u
              (if success then MsgUnsubscribed else MsgUnsubscribeFailed) None
          else reply_text u MsgNotSubscribed None
      | None => reply_text u MsgNotSubscribed None
      end
  end.

Definition all_notification_types : gset string :=
  {[ "status_change"%string; "order_ready"%string ]}.

Definition handle_subscription_email (uid : Z) (e : pystr) : M unit :=
  if negb (_validate_email e) then
    reply_text MessageUpdate MsgInvalidEmail None
  else
    w ← get_world;
    message ←
      match notification_service (bot w) with
      | Some ns =>
          let '(success, subs') :=
            SubscriptionManager.subscribe_user (subscription_manager ns)
              (now w) uid e all_notification_types in
          set_subscription_manager subs';;
          mret (if success then MsgSubscriptionActivated e
                else MsgSubscribeFailed)
      | None => mret MsgNotificationsUnavailable
      end;
    reply_text MessageUpdate message None;;
    user_data_pop "subscription_state".

Definition tracking_keyboard : list (list Button) :=
  [[BtnCancelTracking]; [BtnMainMenu]].

Definition start_order_tracking (u : Update) : M unit :=
  user_data_set "tracking_state" waiting_for_email;;
  _send_or_edit_message u MsgTrackingPrompt (Some tracking_keyboard).

Definition track_command : M unit := start_order_tracking MessageUpdate.

(** [x.get('created_at', '')] *)
Definition created_at_key (o : Order) : pystr :=
  default [] (order_created_at o).

(** [enumerate(...)], numbered from [i]. *)
Fixpoint order_entries (i : Z) (shown : list Order) : list OrderEntry :=
  match shown with
  | [] => []
  | o :: rest =>
      {| order_number := i; order_shown := o |} :: order_entries (i + 1) rest
  end.

Definition order_buttons (shown : list Order) : list (list Button) :=
  map (fun o => [BtnOrderDetails (order_id o)]) shown.

Definition orders_navigation : list (list Button) :=
  [[BtnTrackOrder]; [BtnStartOrder]; [BtnMainMenu]].

Definition show_orders_list (orders : list Order) (e : pystr) : M unit :=
  let sorted_orders := sorted_reverse created_at_key orders in
  let shown := take 10 sorted_orders in
  let total := Z.of_nat (length orders) in
  reply_text MessageUpdate
    (MsgOrdersList total e (order_entries 1 shown)
       (if 10 <? total then Some (total - 10) else None))
    (Some (order_buttons shown ++ orders_navigation)).

Definition orders_not_found_keyboard : list (list Button) :=
  [[BtnTrackOrder]; [BtnStartOrder]; [BtnMainMenu]].

Definition handle_tracking_email (e : pystr) : M unit :=
  if negb (_validate_email e) then
    reply_text MessageUpdate MsgInvalidEmail None
  else
    try_except
      (reply_text MessageUpdate MsgSearchingOrders None;;
       orders ← fetch_orders_by_email e;
       emit EDeleteMessage;;
       match orders with
       | [] =>
           reply_text MessageUpdate (MsgOrdersNotFound e)
             (Some orders_not_found_keyboard)
       | _ => show_orders_list orders e
       end;;
       user_data_pop "tracking_state")
      (fun exn =>
         match exn with
         | APIClientError => handle_api_error "searching orders"
         | _ => handle_api_error "tracking orders"
         end;;
         user_data_pop "tracking_state").

(** [step_messages.get(session.step, ...)] *)
Definition step_messages (s : OrderStep) : option StepHint :=
  match s with
  | SERVICE_SELECTION => Some HintSelectService
  | FILE_UPLOAD => Some HintSendFile
  | SPECIFICATIONS => Some HintSpecButtons
  | CONFIRMATION => Some HintConfirmButtons
  | _ => None
  end.

Definition handle_text_message (uid : Z) (text : pystr) : M unit :=
  ud ← get_user_data;
  if bool_decide (ud !! "tracking_state" = Some waiting_for_email) then
    handle_tracking_email text
  else if bool_decide (ud !! "subscription_state" = Some waiting_for_email)
  then handle_subscription_email uid text
  else
    b ← get_bot;
    match SessionManager.get_session (session_manager b) uid with
    | Some session =>
        if order_handlers b then
          if bool_decide (step session = CONTACT_INFO) then
            if negb (truthy (customer_name session)) then
              emit (EOrderHandlers (handle_contact_name text))
            else if negb (truthy (customer_email session)) then
              emit (EOrderHandlers (handle_contact_email text))
            else
              match customer_phone session with
              | None => emit (EOrderHandlers (handle_contact_phone text))
              | Some _ =>
                  reply_text MessageUpdate MsgContactInfoCollected None
              end
          else if bool_decide (step session = DELIVERY)
                  && delivery_needed session then
            emit (EOrderHandlers (handle_delivery_address text))
          else
            reply_text MessageUpdate
              (MsgStepHint
                 (default HintUseButtons (step_messages (step session))))
              None
        else reply_text MessageUpdate MsgNoSession None
    | None => reply_text MessageUpdate MsgNoSession None
    end.

Definition supported_formats : list pystr :=
  [lit ".stl"; lit ".obj"; lit ".3mf"].

Definition max_file_size : Z := 50 * 1024 * 1024.

Definition handle_file (uid : Z) (file : option Document) : M unit :=
  b ← get_bot;
  let session := SessionManager.get_session (session_manager b) uid in
  if match session with
     | Some s => bool_decide (step s = FILE_UPLOAD) && order_handlers b
     | None => false
     end
  then emit (EOrderHandlers handle_file_upload)
  else
    match file with
    | None => handle_file_error "file_not_found" None
    | Some f =>
        match file_name f with
        | None | Some [] => handle_file_error "file_not_found" None
        | Some name =>
            let filename_lower := lower name in
            if negb (endswith_any filename_lower supported_formats) then
              handle_file_error "invalid_format" (Some name)
            else if truthy_int (file_size f)
                    && (max_file_size <? default 0 (file_size f)) then
              handle_file_error "file_too_large" (Some name)
            else
              match file_size f with
              | Some size =>
                  reply_text MessageUpdate (MsgFileReceived name size) None
              | None => raise TypeError
              end
        end
    end.

Definition help_command (u : Update) : M unit :=
  reply_text u MsgHelp None.

Definition order_command : M unit :=
  b ← get_bot;
  if order_handlers b then emit (EOrderHandlers start_order_process)
  else reply_text MessageUpdate MsgOrdersUnavailable None.

Definition show_order_details (u : Update) (id : Z) : M unit :=
  _send_or_edit_message u (MsgOrderDetails id)
    (Some [[BtnTrackOrder]; [BtnMainMenu]]).

Definition show_notifications_menu (u : Update) (uid : Z) : M unit :=
  b ← get_bot;
  match notification_service b with
  | None =>
      _send_or_edit_message u MsgNotificationsUnavailable
        (Some [[BtnMainMenu]])
  | Some ns =>
      match SubscriptionManager.get_subscription (subscription_manager ns) uid
      with
      | Some sub =>
          if is_active sub then
            _send_or_edit_message u (MsgNotificationsMenu (Some sub))
              (Some [[BtnUnsubscribeNotifications]; [BtnMainMenu]])
          else
            _send_or_edit_message u (MsgNotificationsMenu None)
              (Some [[BtnSubscribeNotifications]; [BtnMainMenu]])
      | None =>
          _send_or_edit_message u (MsgNotificationsMenu None)
            (Some [[BtnSubscribeNotifications]; [BtnMainMenu]])
      end
  end.

(* ================================================================== *)
(** ** Order confirmation *)
(* ================================================================== *)

Module OrderHandlers.

Inductive Outcome : Type :=
| OrderSubmitted (ref : Z)
| OrderSubmissionFailed
| NothingToConfirm.

(** Modelled from the spec: [OrderHandlers.confirm_order] of
    [order_handlers.py], which is not part of the sources.  Confirm calls
    the adapter to submit the order; on success the session moves to
    [SUBMITTED] and is then cleared; on failure it stays at [CONFIRMATION],
    unchanged, and the outcome is [OrderSubmissionFailed].  The spec
    defines Confirm at [CONFIRMATION] only; elsewhere nothing is done. *)
Definition confirm_order (uid : Z) : M Outcome :=
  b ← get_bot;
  match SessionManager.get_session (session_manager b) uid with
  | Some session =>
      if bool_decide (step session = CONFIRMATION) then
        match api_client b with
        | Some api =>
            emit (EApi (SubmitOrder session));;
            match submit_order api session with
            | Some ref =>
                set_session_manager
                  (SessionManager.update_session (session_manager b) uid
                     (set_step SUBMITTED));;
                b' ← get_bot;
                set_session_manager
                  (SessionManager.clear_session (session_manager b') uid).2;;
                emit (EReply (MsgOrderSubmitted ref) None);;
                mret (OrderSubmitted ref)
            | None =>
                emit (EReply MsgOrderSubmissionFailed None);;
                mret OrderSubmissionFailed
            end
        | None =>
            emit (EReply MsgOrderSubmissionFailed None);;
            mret OrderSubmissionFailed
        end
      else mret NothingToConfirm
  | None => mret NothingToConfirm
  end.

End OrderHandlers.

(* ================================================================== *)
(** ** Inline keyboard callbacks *)
(* ================================================================== *)

(** [query.data], parsed: one constructor per branch of the dispatch chain
    of [handle_callback_query], in its order, with the integer or word the
    branch cuts out of the data. *)
Inductive Callback : Type :=
| cb_start_order
| cb_show_services
| cb_services_page (page : Z)
| cb_select_service (id : Z)
| cb_order_service (id : Z)
| cb_order_select_service (id : Z)
| cb_order_cancel
| cb_order_skip_phone
| cb_order_continue_with_files
| cb_order_spec_material (m : pystr)
| cb_order_spec_quality (q : pystr)
| cb_order_spec_infill (i : pystr)
| cb_order_delivery_pickup
| cb_order_delivery_shipping
| cb_order_confirm
| cb_order_edit_menu
| cb_order_back_to_services
| cb_order_back_to_contacts
| cb_order_back_to_files
| cb_order_back_to_specs
| cb_order_back_to_delivery
| cb_order_back_to_confirmation
| cb_order_edit_contacts
| cb_order_edit_files
| cb_order_edit_specs
| cb_order_edit_delivery
| cb_order_remove_last_file
| cb_order_back_to_material
| cb_order_back_to_quality
| cb_main_menu
| cb_track_order
| cb_cancel_tracking
| cb_cancel_subscription
| cb_order_details (id : Z)
| cb_notifications_menu
| cb_subscribe_notifications
| cb_unsubscribe_notifications
| cb_help
| cb_unknown.

(** [if self.order_handlers: await self.order_handlers.<call>(...)] *)
Definition order_call (c : OrderHandlerCall) : M unit :=
  b ← get_bot;
  if order_handlers b then emit (EOrderHandlers c) else mret tt.

Definition order_call_or_unavailable (c : OrderHandlerCall) : M unit :=
  b ← get_bot;
  if order_handlers b then emit (EOrderHandlers c)
  else query_reply_text CallbackUpdate MsgOrdersUnavailable None.

Definition handle_callback_query (uid : Z) (data : Callback) : M unit :=
  emit EAnswerCallback;;
  try_except
    (match data with
     | cb_start_order => order_call_or_unavailable start_order_process
     | cb_show_services => show_services_catalog CallbackUpdate 0
     | cb_services_page page => show_services_catalog CallbackUpdate page
     | cb_select_service id => handle_service_selection CallbackUpdate id
     | cb_order_service id =>
         order_call_or_unavailable (order_handle_service_selection id)
     | cb_order_select_service id =>
         order_call (order_handle_service_selection id)
     | cb_order_cancel => order_call cancel_order
     | cb_order_skip_phone => order_call skip_phone_step
     | cb_order_continue_with_files => order_call continue_with_files
     | cb_order_spec_material m => order_call (handle_material_selection m)
     | cb_order_spec_quality q => order_call (handle_quality_selection q)
     | cb_order_spec_infill i => order_call (handle_infill_selection i)
     | cb_order_delivery_pickup => order_call handle_delivery_pickup
     | cb_order_delivery_shipping => order_call handle_delivery_shipping
     | cb_order_confirm =>
         b ← get_bot;
         if order_handlers b then OrderHandlers.confirm_order uid;; mret tt
         else mret tt
     | cb_order_edit_menu => order_call show_edit_menu
     | cb_order_back_to_services => order_call back_to_services
     | cb_order_back_to_contacts => order_call back_to_contacts
     | cb_order_back_to_files => order_call back_to_files
     | cb_order_back_to_specs => order_call back_to_specs
     | cb_order_back_to_delivery => order_call back_to_delivery
     | cb_order_back_to_confirmation => order_call back_to_confirmation
     | cb_order_edit_contacts => order_call back_to_contacts
     | cb_order_edit_files => order_call back_to_files
     | cb_order_edit_specs => order_call back_to_specs
     | cb_order_edit_delivery => order_call back_to_delivery
     | cb_order_remove_last_file => order_call remove_last_file
     | cb_order_back_to_material => order_call back_to_material
     | cb_order_back_to_quality => order_call back_to_quality
     | cb_main_menu => show_main_menu CallbackUpdate
     | cb_track_order => start_order_tracking CallbackUpdate
     | cb_cancel_tracking =>
         user_data_pop "tracking_state";; show_main_menu CallbackUpdate
     | cb_cancel_subscription =>
         user_data_pop "subscription_state";; show_main_menu CallbackUpdate
     | cb_order_details id => show_order_details CallbackUpdate id
     | cb_notifications_menu => show_notifications_menu CallbackUpdate uid
     | cb_subscribe_notifications => subscribe_command CallbackUpdate uid
     | cb_unsubscribe_notifications => unsubscribe_command CallbackUpdate uid
     | cb_help => help_command CallbackUpdate
     | cb_unknown => query_reply_text CallbackUpdate MsgUnknownCommand None
     end)
    (fun _ => handle_api_error "handling callback").

(* ================================================================== *)
(** ** Vocabulary of the properties *)
(* ================================================================== *)

(** The user's active order session: the branch the handlers take when
    [session and self.order_handlers] holds; the other branch is the one
    they comment as "No active session". *)
Definition active_session (w : World) (uid : Z) : option OrderSession :=
  if order_handlers (bot w)
  then SessionManager.get_session (session_manager (bot w)) uid
  else None.

Definition sessions_of (w : World) : gmap Z OrderSession :=
  session_manager (bot w).

Definition mode_waiting (w : World) (mode : string) : Prop :=
  user_data w !! mode = Some waiting_for_email.

Inductive ContactField : Type :=
| FieldName
| FieldEmail
| FieldPhone.

(** The fixed order of the contact fields. *)
Definition contact_fields : list ContactField :=
  [FieldName; FieldEmail; FieldPhone].

(** Name and email are unset while empty or [None]; the phone is unset
    only while it is [None]. *)
Definition field_unset (s : OrderSession) (f : ContactField) : bool :=
  match f with
  | FieldName => negb (truthy (customer_name s))
  | FieldEmail => negb (truthy (customer_email s))
  | FieldPhone => bool_decide (customer_phone s = None)
  end.

Definition first_unset_field (s : OrderSession) : option ContactField :=
  List.find (field_unset s) contact_fields.

Definition contact_handler (f : ContactField) (text : pystr)
  : OrderHandlerCall :=
  match f with
  | FieldName => handle_contact_name text
  | FieldEmail => handle_contact_email text
  | FieldPhone => handle_contact_phone text
  end.

(** What the field-routing rule sends out for a text. *)
Definition contact_route (s : OrderSession) (text : pystr) : list Event :=
  match first_unset_field s with
  | Some f => [EOrderHandlers (contact_handler f text)]
  | None => [EReply MsgContactInfoCollected None]
  end.

(** The routing rule without any condition on the chat's modes. *)
Definition contact_routing_unconditional : Prop :=
  forall (w : World) (uid : Z) (text : pystr) (s : OrderSession),
    active_session w uid = Some s ->
    step s = CONTACT_INFO ->
    events (handle_text_message uid text) w = contact_route s text.

(** The user has an active session at [FILE_UPLOAD]. *)
Definition file_upload_active (w : World) (uid : Z) : Prop :=
  exists s, active_session w uid = Some s /\ step s = FILE_UPLOAD.

(** The document's name ends, case-insensitively, with [.stl], [.obj] or
    [.3mf]; a document without a name does not. *)
Definition supported_name (file : option Document) : bool :=
  match file with
  | Some f =>
      match file_name f with
      | Some name => endswith_any (lower name) supported_formats
      | None => false
      end
  | None => false
  end.

(** Every standalone document with an unsupported name is rejected as an
    unsupported format. *)
Definition unsupported_always_invalid_format : Prop :=
  forall (w : World) (uid : Z) (file : option Document),
    ~ file_upload_active w uid ->
    supported_name file = false ->
    exists filename,
      events (handle_file uid file) w = [EFileError "invalid_format" filename].

Definition is_catalog (m : Message) : bool :=
  match m with
  | MsgCatalog _ _ => true
  | _ => false
  end.

(** The trace shows the services catalog to the user. *)
Definition displays_catalog (t : list Event) : Prop :=
  exists m kb, is_catalog m = true /\ (EReply m kb ∈ t \/ EEdit m kb ∈ t).

(** [service_id] is not in the listing. *)
Definition not_listed (services : list Service) (service_id : Z) : Prop :=
  forall s, s ∈ services -> svc_id s <> Some service_id.

(** A stale selection shows the catalog again. *)
Definition stale_selection_redisplays_catalog : Prop :=
  forall (w : World) (api : APIClient) (services : list Service) (id : Z),
    api_client (bot w) = Some api ->
    get_services api true = Some services ->
    not_listed services id ->
    displays_catalog (events (handle_service_selection CallbackUpdate id) w).

(** [ceil(a / b)] for positive [b]. *)
Definition ceil_div (a b : Z) : Z := - ((- a) / b).

(** Newest first, on the [created_at] fields themselves: the date of [a] is
    not below the date of [b] in the order of Python strings; an order
    without a date is older than every dated one, and as old as one whose date
    is the empty string. *)
Definition newer_or_same (a b : Order) : Prop :=
  match order_created_at a, order_created_at b with
  | Some x, Some y => PyStr.ge x y
  | Some _, None => True
  | None, Some y => y = []
  | None, None => True
  end.

Definition buttons_of (kb : list (list Button)) : list Button := concat kb.

Definition is_prev (b : Button) : bool :=
  match b with BtnPrevPage _ => true | _ => false end.

Definition is_next (b : Button) : bool :=
  match b with BtnNextPage _ => true | _ => false end.

(** The event [_send_or_edit_message] produces. *)
Definition sent (u : Update) (m : Message) (kb : option (list (list Button)))
  : Event :=
  match u with
  | CallbackUpdate => EEdit m kb
  | MessageUpdate => EReply m kb
  end.

(** Sample data for the examples. *)
Definition no_specifications : Specifications :=
  {| material := None; quality := None; infill := None |}.

Definition sample_session (st : OrderStep) (name mail phone : option pystr)
  : OrderSession :=
  {| user_id := 7; step := st; service_id := Some 5;
     customer_name := name; customer_email := mail; customer_phone := phone;
     uploaded_files := []; specifications := no_specifications;
     delivery_needed := false; delivery_address := None;
     created_at := 0; updated_at := 0 |}.

Definition sample_service (id : Z) : Service :=
  {| svc_id := Some id; svc_name := Some (lit "Print"); svc_description := None;
     svc_category := None; svc_features := [] |}.

Definition sample_order (id : Z) (created : string) : Order :=
  {| order_id := Some id; order_status := Some (lit "new");
     order_service_name := None; order_created_at := Some (lit created) |}.

Definition sample_api (services : list Service) (orders : option (list Order))
    (submitted : option Z) : APIClient :=
  {| get_services := fun _ => Some services;
     get_orders_by_email := fun _ => orders;
     submit_order := fun _ => submitted |}.

Definition sample_world (api : option APIClient)
    (sessions : gmap Z OrderSession) (subs : gmap Z Subscription)
    (ud : gmap string string) : World :=
  {| bot := {| api_client := api; session_manager := sessions;
               order_handlers := true;
               notification_service :=
                 Some {| subscription_manager := subs |} |};
     user_data := ud; now := 1000 |}.

(** The subscription records of the notification service. *)
Definition subscriptions_of (w : World) : gmap Z Subscription :=
  match notification_service (bot w) with
  | Some ns => subscription_manager ns
  | None => ∅
  end.

(** [old] after a subscribe with [e], and after an unsubscribe. *)
Definition updated_subscription (uid : Z) (e : pystr) (old : Subscription)
  : Subscription :=
  {| sub_user_id := uid; email := e;
     notification_types := all_notification_types; is_active := true;
     subscribed_at := subscribed_at old |}.

Definition deactivated (uid : Z) (old : Subscription) : Subscription :=
  {| sub_user_id := uid; email := email old;
     notification_types := notification_types old; is_active := false;
     subscribed_at := subscribed_at old |}.

(** Subscribing through the chat: the [/subscribe] command, then the email
    as the next text message. *)
Definition subscribe_with_email (uid : Z) (e : pystr) : M unit :=
  subscribe_command MessageUpdate uid;; handle_text_message uid e.

(** Subscribing a user whose subscription is active stores the email given,
    whatever the stored one was. *)
Definition resubscribing_updates_email : Prop :=
  forall (w : World) (uid : Z) (old : Subscription) (e : pystr),
    subscriptions_of w !! uid = Some old ->
    is_active old = true ->
    _validate_email e = true ->
    ~ mode_waiting w "tracking_state" ->
    email <$> (subscriptions_of (world_after (subscribe_with_email uid e) w)
               !! uid)
    = Some e.

Definition is_order_call (e : Event) : bool :=
  match e with EOrderHandlers _ => true | _ => false end.

(** The run of [m] calls no order handler and leaves the session store as
    it was. *)
Definition keeps_order_flow_out {A : Type} (m : M A) (w : World) : Prop :=
  forallb (fun e => negb (is_order_call e)) (events m w) = true
  /\ sessions_of (world_after m w) = sessions_of w.

Definition is_select (b : Button) : bool :=
  match b with BtnSelectService _ _ => true | _ => false end.

Definition is_order_details (b : Button) : bool :=
  match b with BtnOrderDetails _ => true | _ => false end.

(** Descending order of the sort keys. *)
Definition key_ge {A : Type} (key : A -> pystr) (a b : A) : Prop :=
  PyStr.ge (key a) (key b).

Definition seven_services : list Service :=
  map sample_service [1; 2; 3; 4; 5; 6; 7].

Definition sample_subscription : Subscription :=
  {| sub_user_id := 7; email := lit "ann@x.com";
     notification_types := all_notification_types; is_active := true;
     subscribed_at := 10 |}.

Definition three_orders : list Order :=
  [sample_order 1 "2024-01-05"; sample_order 2 "2024-03-01";
   sample_order 3 "2024-02-10"].

(* ================================================================== *)
(** ** Callback data as text, and further vocabulary *)
(* ================================================================== *)

(** [s.startswith(prefix)] *)
Definition startswith (s prefix : pystr) : bool :=
  PyStr.eqb (take (length prefix) s) prefix.

(** [s.split(sep)] for a one-character separator. *)
Fixpoint split_on (sep : N) (s : pystr) : list pystr :=
  match s with
  | [] => [[]]
  | c :: s' =>
      if (c =? sep)%N then [] :: split_on sep s'
      else
        match split_on sep s' with
        | piece :: pieces => (c :: piece) :: pieces
        | [] => [[c]]
        end
  end.

Definition underscore : N := 95%N.

Fixpoint uint_chars (d : Decimal.uint) : pystr :=
  match d with
  | Decimal.Nil => []
  | Decimal.D0 d => 48%N :: uint_chars d
  | Decimal.D1 d => 49%N :: uint_chars d
  | Decimal.D2 d => 50%N :: uint_chars d
  | Decimal.D3 d => 51%N :: uint_chars d
  | Decimal.D4 d => 52%N :: uint_chars d
  | Decimal.D5 d => 53%N :: uint_chars d
  | Decimal.D6 d => 54%N :: uint_chars d
  | Decimal.D7 d => 55%N :: uint_chars d
  | Decimal.D8 d => 56%N :: uint_chars d
  | Decimal.D9 d => 57%N :: uint_chars d
  end.

(** [f"{z}"] for an integer: the decimal numeral, with [-] when negative. *)
Definition py_str_int (z : Z) : pystr :=
  match Z.to_int z with
  | Decimal.Pos d => uint_chars d
  | Decimal.Neg d => 45%N :: uint_chars d
  end.

(** The [callback_data] string each button is built with.  An order
    without an [id] is shown with [order.get('id', 'N/A')]. *)
Definition callback_data (b : Button) : pystr :=
  match b with
  | BtnStartOrder => lit "start_order"
  | BtnShowServices => lit "show_services"
  | BtnTrackOrder => lit "track_order"
  | BtnNotificationsMenu => lit "notifications_menu"
  | BtnHelp => lit "help"
  | BtnMainMenu => lit "main_menu"
  | BtnSelectService _ id => lit "select_service_" ++ py_str_int id
  | BtnPrevPage target => lit "services_page_" ++ py_str_int target
  | BtnNextPage target => lit "services_page_" ++ py_str_int target
  | BtnOrderService id => lit "order_service_" ++ py_str_int id
  | BtnCancelTracking => lit "cancel_tracking"
  | BtnCancelSubscription => lit "cancel_subscription"
  | BtnOrderDetails (Some id) => lit "order_details_" ++ py_str_int id
  | BtnOrderDetails None => lit "order_details_N/A"
  | BtnSubscribeNotifications => lit "subscribe_notifications"
  | BtnUnsubscribeNotifications => lit "unsubscribe_notifications"
  end.

(** [int(data.split("_")[k])] and [data.split("_")[k]]; [None] when the
    conversion or the index raises.  The built-in [int] on strings is a
    parameter. *)
Definition int_field (py_int : pystr -> option Z) (data : pystr) (k : nat)
  : option Z :=
  (split_on underscore data !! k) ≫= py_int.

Definition word_field (data : pystr) (k : nat) : option pystr :=
  split_on underscore data !! k.

(** The dispatch chain of [handle_callback_query] on the text of
    [query.data], test by test in the order of the source. *)
Definition parse_callback (py_int : pystr -> option Z) (data : pystr)
  : option Callback :=
  if PyStr.eqb data (lit "start_order") then Some cb_start_order
  else if PyStr.eqb data (lit "show_services") then Some cb_show_services
  else if startswith data (lit "services_page_") then
    cb_services_page <$> int_field py_int data 2
  else if startswith data (lit "select_service_") then
    cb_select_service <$> int_field py_int data 2
  else if startswith data (lit "order_service_") then
    cb_order_service <$> int_field py_int data 2
  else if startswith data (lit "order_select_service_") then
    cb_order_select_service <$> int_field py_int data 3
  else if PyStr.eqb data (lit "order_cancel") then Some cb_order_cancel
  else if PyStr.eqb data (lit "order_skip_phone") then
    Some cb_order_skip_phone
  else if PyStr.eqb data (lit "order_continue_with_files") then
    Some cb_order_continue_with_files
  else if startswith data (lit "order_spec_material_") then
    cb_order_spec_material <$> word_field data 3
  else if startswith data (lit "order_spec_quality_") then
    cb_order_spec_quality <$> word_field data 3
  else if startswith data (lit "order_spec_infill_") then
    cb_order_spec_infill <$> word_field data 3
  else if PyStr.eqb data (lit "order_delivery_pickup") then
    Some cb_order_delivery_pickup
  else if PyStr.eqb data (lit "order_delivery_shipping") then
    Some cb_order_delivery_shipping
  else if PyStr.eqb data (lit "order_confirm") then Some cb_order_confirm
  else if PyStr.eqb data (lit "order_edit_menu") then Some cb_order_edit_menu
  else if PyStr.eqb data (lit "order_back_to_services") then
    Some cb_order_back_to_services
  else if PyStr.eqb data (lit "order_back_to_contacts") then
    Some cb_order_back_to_contacts
  else if PyStr.eqb data (lit "order_back_to_files") then
    Some cb_order_back_to_files
  else if PyStr.eqb data (lit "order_back_to_specs") then
    Some cb_order_back_to_specs
  else if PyStr.eqb data (lit "order_back_to_delivery") then
    Some cb_order_back_to_delivery
  else if PyStr.eqb data (lit "order_back_to_confirmation") then
    Some cb_order_back_to_confirmation
  else if PyStr.eqb data (lit "order_edit_contacts") then
    Some cb_order_edit_contacts
  else if PyStr.eqb data (lit "order_edit_files") then
    Some cb_order_edit_files
  else if PyStr.eqb data (lit "order_edit_specs") then
    Some cb_order_edit_specs
  else if PyStr.eqb data (lit "order_edit_delivery") then
    Some cb_order_edit_delivery
  else if PyStr.eqb data (lit "order_remove_last_file") then
    Some cb_order_remove_last_file
  else if PyStr.eqb data (lit "order_back_to_material") then
    Some cb_order_back_to_material
  else if PyStr.eqb data (lit "order_back_to_quality") then
    Some cb_order_back_to_quality
  else if PyStr.eqb data (lit "main_menu") then Some cb_main_menu
  else if PyStr.eqb data (lit "track_order") then Some cb_track_order
  else if PyStr.eqb data (lit "cancel_tracking") then Some cb_cancel_tracking
  else if PyStr.eqb data (lit "cancel_subscription") then
    Some cb_cancel_subscription
  else if startswith data (lit "order_details_") then
    cb_order_details <$> int_field py_int data 2
  else if PyStr.eqb data (lit "notifications_menu") then
    Some cb_notifications_menu
  else if PyStr.eqb data (lit "subscribe_notifications") then
    Some cb_subscribe_notifications
  else if PyStr.eqb data (lit "unsubscribe_notifications") then
    Some cb_unsubscribe_notifications
  else if PyStr.eqb data (lit "help") then Some cb_help
  else Some cb_unknown.

(** [handle_callback_query] on the text of [query.data]: a conversion that
    raises inside the [try] ends in the error report of its [except]. *)
Definition handle_callback_data (py_int : pystr -> option Z) (uid : Z)
    (data : pystr) : M unit :=
  match parse_callback py_int data with
  | Some cb => handle_callback_query uid cb
  | None => emit EAnswerCallback;; handle_api_error "handling callback"
  end.

(** The branch each button is made for; the details button of an order
    without an id has none. *)
Definition button_callback (b : Button) : option Callback :=
  match b with
  | BtnStartOrder => Some cb_start_order
  | BtnShowServices => Some cb_show_services
  | BtnTrackOrder => Some cb_track_order
  | BtnNotificationsMenu => Some cb_notifications_menu
  | BtnHelp => Some cb_help
  | BtnMainMenu => Some cb_main_menu
  | BtnSelectService _ id => Some (cb_select_service id)
  | BtnPrevPage target => Some (cb_services_page target)
  | BtnNextPage target => Some (cb_services_page target)
  | BtnOrderService id => Some (cb_order_service id)
  | BtnCancelTracking => Some cb_cancel_tracking
  | BtnCancelSubscription => Some cb_cancel_subscription
  | BtnOrderDetails (Some id) => Some (cb_order_details id)
  | BtnOrderDetails None => None
  | BtnSubscribeNotifications => Some cb_subscribe_notifications
  | BtnUnsubscribeNotifications => Some cb_unsubscribe_notifications
  end.

(** The integer a button's data carries, if any. *)
Definition button_number (b : Button) : option Z :=
  match b with
  | BtnSelectService _ id => Some id
  | BtnPrevPage target => Some target
  | BtnNextPage target => Some target
  | BtnOrderService id => Some id
  | BtnOrderDetails id => id
  | _ => None
  end.

(** [int] reads back the numeral that formatting wrote for [z]. *)
Definition reads_back (py_int : pystr -> option Z) (z : Z) : Prop :=
  py_int (py_str_int z) = Some z.

(** A reader of plain decimal numerals, for the examples: an optional [-]
    and digits. *)
Fixpoint digits_value (acc : Z) (s : pystr) : option Z :=
  match s with
  | [] => Some acc
  | c :: s' =>
      if is_digit c then digits_value (10 * acc + (Z.of_N c - 48)) s'
      else None
  end.

Definition decimal_int (s : pystr) : option Z :=
  match s with
  | [] => None
  | 45%N :: ((_ :: _) as digits) => Z.opp <$> digits_value 0 digits
  | _ => digits_value 0 s
  end.

(** [local@domain.tld]: a non-empty local part of letters, digits and
    [._%+-], a non-empty domain of letters, digits, dots and hyphens, and
    a final label of at least two letters. *)
Definition well_formed_email (s : pystr) : Prop :=
  exists loc dom tld,
    s = loc ++ [64%N] ++ dom ++ [46%N] ++ tld
    /\ loc <> [] /\ Forall (fun c => local_char c = true) loc
    /\ dom <> [] /\ Forall (fun c => domain_char c = true) dom
    /\ (2 <= length tld)%nat /\ Forall (fun c => is_alpha c = true) tld.

(** [a] and [c] differ somewhere within their common length. *)
Definition clash (a c : pystr) : bool :=
  negb (PyStr.eqb (take (length c) a) (take (length a) c)).

(** The user has a subscription whose [is_active] is set. *)
Definition actively_subscribed (w : World) (uid : Z) : bool :=
  match subscriptions_of w !! uid with
  | Some sub => is_active sub
  | None => false
  end.

(** The notification service is there. *)
Definition notifications_available (w : World) : bool :=
  match notification_service (bot w) with
  | Some _ => true
  | None => false
  end.

(** [w] with its [context.user_data] replaced. *)
Definition with_user_data (w : World) (ud : gmap string string) : World :=
  {| bot := bot w; user_data := ud; now := now w |}.

(** The report that ends a callback whose handler raised. *)
Definition callback_error_report : list Event :=
  [EAnswerCallback; EApiError "handling callback"].

(** The button [b] is on a keyboard the trace sends. *)
Definition offered (b : Button) (t : list Event) : Prop :=
  exists m kb, (EReply m (Some kb) ∈ t \/ EEdit m (Some kb) ∈ t)
               /\ b ∈ buttons_of kb.

(** The listing lines of a catalog message. *)
Definition message_entries (m : Message) : list CatalogEntry :=
  match m with
  | MsgCatalog entries _ => entries
  | _ => []
  end.

(** The id under which a service can be selected: present and not zero. *)
Definition selectable_id (s : Service) : option Z :=
  match svc_id s with
  | Some id => if truthy_int (Some id) then Some id else None
  | None => None
  end.

Definition button_service_id (b : Button) : option Z :=
  match b with
  | BtnSelectService _ id => Some id
  | _ => None
  end.

(** All the pages of a listing, first to last. *)
Definition catalog_pages (services : list Service) : list (list Service) :=
  page_services_of services
    <$> seqZ 0 (total_pages_of (Z.of_nat (length services))).

Definition twelve_services : list Service :=
  map sample_service [1; 2; 3; 4; 5; 6; 7; 8; 9; 10; 11; 12].

(* ================================================================== *)
(** * Properties *)
(* ================================================================== *)

Ltac unfold_monad :=
  unfold world_after, events, result, reply_text, query_reply_text,
    _send_or_edit_message, handle_api_error, handle_file_error,
    user_data_set, user_data_pop, set_user_data, set_session_manager,
    set_subscription_manager, get_user_data, get_bot, get_world, emit, raise,
    try_except, mbind, M_bind, mret, M_ret in *.

#[local] Arguments endswith_any : simpl never.
#[local] Arguments lower : simpl never.
#[local] Arguments truthy_int : simpl never.
#[local] Arguments Z.ltb : simpl never.
#[local] Arguments _validate_email : simpl never.

(** ** Email validation on examples *)

Example validate_plain : _validate_email (lit "ann@x.com") = true.
Proof. reflexivity. Qed.

Example validate_padded : _validate_email (lit "  ann@x.com  ") = true.
Proof. reflexivity. Qed.

Example validate_short_tld : _validate_email (lit "ann@x.c") = false.
Proof. reflexivity. Qed.

Example validate_no_at : _validate_email (lit "ann.x.com") = false.
Proof. reflexivity. Qed.

Example validate_blank : _validate_email (lit "   ") = false.
Proof. reflexivity. Qed.

Example validate_inner_space : _validate_email (lit "an n@x.com") = false.
Proof. reflexivity. Qed.

(** ** Text routing *)

Lemma active_session_inv (w : World) (uid : Z) (s : OrderSession) :
  active_session w uid = Some s ->
  order_handlers (bot w) = true /\ session_manager (bot w) !! uid = Some s.
Proof.
  unfold active_session, SessionManager.get_session.
  destruct (order_handlers (bot w)); [done | discriminate].
Qed.

(** With no email mode pending, a text is answered from the session alone
    and the dispatcher changes nothing itself. *)
Lemma text_reaches_order_flow (w : World) (uid : Z) (text : pystr) :
  ~ mode_waiting w "tracking_state" ->
  ~ mode_waiting w "subscription_state" ->
  handle_text_message uid text w =
  match active_session w uid with
  | Some session =>
      if bool_decide (step session = CONTACT_INFO) then
        (inr tt, w, contact_route session text)
      else if bool_decide (step session = DELIVERY) && delivery_needed session
      then (inr tt, w, [EOrderHandlers (handle_delivery_address text)])
      else (inr tt, w,
            [EReply (MsgStepHint
                       (default HintUseButtons (step_messages (step session))))
               None])
  | None => (inr tt, w, [EReply MsgNoSession None])
  end.
Proof.
  unfold mode_waiting. intros Ht Hs.
  unfold handle_text_message, active_session, SessionManager.get_session.
  unfold_monad. simpl.
  rewrite !bool_decide_eq_false_2 by done.
  destruct (session_manager (bot w) !! uid) as [s|]; simpl;
    destruct (order_handlers (bot w)); simpl; try reflexivity.
  case_bool_decide; simpl.
  - unfold contact_route, first_unset_field; simpl.
    destruct (truthy (customer_name s)); simpl; [|reflexivity].
    destruct (truthy (customer_email s)); simpl; [|reflexivity].
    destruct (customer_phone s); simpl; reflexivity.
  - destruct (bool_decide (step s = DELIVERY) && delivery_needed s);
      reflexivity.
Qed.

(** A session waiting for the customer's name, in a chat whose tracking
    mode waits for an email: the text goes to the tracking handler, which
    rejects it as an email, and not to the name. *)
Example text_preempted_by_tracking :
  events (handle_text_message 7 (lit "Ann"))
    (sample_world None {[ 7 := sample_session CONTACT_INFO None None None ]}
       ∅ {[ "tracking_state"%string := waiting_for_email ]})
  = [EReply MsgInvalidEmail None].
Proof. reflexivity. Qed.

(** C1, as stated, fails: with the tracking mode waiting for an email, the
    text of a user whose session is at [CONTACT_INFO] with no name yet is
    not routed to the name field. *)
Lemma contact_routing_preempted : ~ contact_routing_unconditional.
Proof.
  intros H.
  specialize (H (sample_world None
                   {[ 7 := sample_session CONTACT_INFO None None None ]}
                   ∅ {[ "tracking_state"%string := waiting_for_email ]})
                7 (lit "Ann") (sample_session CONTACT_INFO None None None)).
  vm_compute in H. specialize (H eq_refl eq_refl). discriminate H.
Qed.

(** C1, amended: for an active session at [CONTACT_INFO], a text that no
    pending [waiting_for_email] mode consumes is routed to the first unset
    contact field in the order name, email, phone; the phone is targeted
    only while [customer_phone] is [None]; so the email handler is never
    reached before the name is set, nor the phone handler before name and
    email are. *)
Theorem contact_text_routing (w : World) (uid : Z) (text : pystr)
    (s : OrderSession) :
  ~ mode_waiting w "tracking_state" ->
  ~ mode_waiting w "subscription_state" ->
  active_session w uid = Some s ->
  step s = CONTACT_INFO ->
  events (handle_text_message uid text) w = contact_route s text
  /\ world_after (handle_text_message uid text) w = w
  /\ (forall t, EOrderHandlers (handle_contact_email t)
                ∈ events (handle_text_message uid text) w ->
      truthy (customer_name s) = true)
  /\ (forall t, EOrderHandlers (handle_contact_phone t)
                ∈ events (handle_text_message uid text) w ->
      truthy (customer_name s) = true /\ truthy (customer_email s) = true
      /\ customer_phone s = None)
  /\ (customer_phone s <> None ->
      forall t, EOrderHandlers (handle_contact_phone t)
                ∉ events (handle_text_message uid text) w).
Proof.
  intros Ht Hs Hact Hstep.
  unfold events, world_after.
  rewrite (text_reaches_order_flow w uid text Ht Hs), Hact.
  rewrite bool_decide_eq_true_2 by done. simpl.
  unfold contact_route, first_unset_field. simpl.
  assert (Hsingle : forall (e e' : Event), e ∈ [e'] -> e = e').
  { intros e e' Hin. by apply list_elem_of_singleton in Hin. }
  destruct (truthy (customer_name s)) eqn:Hn; simpl;
    [destruct (truthy (customer_email s)) eqn:He; simpl;
       [destruct (customer_phone s) eqn:Hp; simpl|]|];
    (split; [reflexivity|]); (split; [reflexivity|]);
    (split; [intros t Hin; apply Hsingle in Hin; done|]);
    (split; [intros t Hin; apply Hsingle in Hin; done|]);
    intros Hp' t Hin; apply Hsingle in Hin; done.
Qed.

Lemma contact_text_routing_witness :
  events (handle_text_message 7 (lit "ann@x.com"))
    (sample_world None
       {[ 7 := sample_session CONTACT_INFO (Some (lit "Ann")) None None ]} ∅ ∅)
  = [EOrderHandlers (handle_contact_email (lit "ann@x.com"))].
Proof.
  refine (proj1 (contact_text_routing
                   (sample_world None
                      {[ 7 := sample_session CONTACT_INFO (Some (lit "Ann"))
                                None None ]} ∅ ∅)
                   7 (lit "ann@x.com")
                   (sample_session CONTACT_INFO (Some (lit "Ann")) None None)
                   _ _ _ _)).
  - vm_compute. discriminate.
  - vm_compute. discriminate.
  - reflexivity.
  - reflexivity.
Defined.

(** ** Documents *)

Lemma file_upload_active_dec (w : World) (uid : Z) :
  file_upload_active w uid <->
  match session_manager (bot w) !! uid with
  | Some s => bool_decide (step s = FILE_UPLOAD) && order_handlers (bot w)
  | None => false
  end = true.
Proof.
  unfold file_upload_active, active_session, SessionManager.get_session.
  destruct (order_handlers (bot w)), (session_manager (bot w) !! uid) as [s|];
    rewrite ?andb_true_r, ?andb_false_r; split.
  - intros (s' & [= <-] & Hs). by apply bool_decide_eq_true.
  - intros Hs%bool_decide_eq_true. eauto.
  - intros (? & [=] & _).
  - done.
  - intros (? & [=] & _).
  - done.
  - intros (? & [=] & _).
  - done.
Qed.

(** A document without a name, sent by a user with no session: rejected as
    not found, not as an unsupported format. *)
Example nameless_document_not_found :
  events (handle_file 7 (Some {| file_name := None; file_size := Some 10 |}))
    (sample_world None ∅ ∅ ∅)
  = [EFileError "file_not_found" None].
Proof. reflexivity. Qed.

(** C2, as stated, fails: a standalone document that has no file name does
    not end with a supported extension, yet it is not rejected as an
    unsupported format. *)
Lemma nameless_document_not_invalid_format :
  ~ unsupported_always_invalid_format.
Proof.
  intros H.
  destruct (H (sample_world None ∅ ∅ ∅) 7
              (Some {| file_name := None; file_size := Some 10 |}))
    as [fn Hfn].
  - intros (s & Hs & _). vm_compute in Hs. discriminate.
  - reflexivity.
  - vm_compute in Hfn. discriminate.
Qed.

(** C2, amended: a document is handed to the order flow if and only if the
    user has an active session at [FILE_UPLOAD]; otherwise it is handled
    standalone and no session is created or mutated: a document without a
    file name is rejected as not found; a named one whose name does not end,
    case-insensitively, with [.stl], [.obj] or [.3mf] is rejected as an
    unsupported format; one with a supported name and a size above
    [50*1024*1024] is rejected as too large; one with a supported name and
    a size within the limit is acknowledged. *)
Theorem file_routing (w : World) (uid : Z) (file : option Document) :
  (events (handle_file uid file) w = [EOrderHandlers handle_file_upload]
   <-> file_upload_active w uid)
  /\ (~ file_upload_active w uid ->
      sessions_of (world_after (handle_file uid file) w) = sessions_of w
      /\ (truthy (file ≫= file_name) = false ->
          events (handle_file uid file) w = [EFileError "file_not_found" None])
      /\ (forall f name, file = Some f -> file_name f = Some name ->
          truthy (Some name) = true ->
          (supported_name file = false ->
           events (handle_file uid file) w
           = [EFileError "invalid_format" (Some name)])
          /\ (forall size, supported_name file = true ->
              file_size f = Some size -> max_file_size < size ->
              events (handle_file uid file) w
              = [EFileError "file_too_large" (Some name)])
          /\ (forall size, supported_name file = true ->
              file_size f = Some size -> size <= max_file_size ->
              events (handle_file uid file) w
              = [EReply (MsgFileReceived name size) None]))).
Proof.
  pose proof (file_upload_active_dec w uid) as Hdec.
  unfold handle_file, SessionManager.get_session, sessions_of.
  unfold_monad. simpl.
  destruct (match session_manager (bot w) !! uid with
            | Some s =>
                bool_decide (step s = FILE_UPLOAD) && order_handlers (bot w)
            | None => false
            end) eqn:Hact; simpl.
  - split; [split; [intros _; by apply Hdec | done] |].
    intros Hn. exfalso. apply Hn. by apply Hdec.
  - assert (Hn : ~ file_upload_active w uid).
    { intros H%Hdec. discriminate. }
    split.
    + split; [|done]. intros Hev. exfalso.
      destruct file as [[[[|c n]|] sz]|]; simpl in Hev; try discriminate.
      destruct (endswith_any _ _); simpl in Hev; try discriminate.
      destruct (truthy_int sz && _); simpl in Hev; try discriminate.
      destruct sz; simpl in Hev; discriminate.
    + intros _. split; [|split].
      * destruct file as [[[[|c n]|] sz]|]; simpl; try reflexivity.
        destruct (endswith_any _ _); simpl; try reflexivity.
        destruct (truthy_int sz && _); simpl; try reflexivity.
        destruct sz; reflexivity.
      * destruct file as [[[[|c n]|] sz]|]; simpl; try reflexivity;
          discriminate.
      * intros f name -> Hname Hne. unfold supported_name. rewrite Hname.
        destruct f as [fn sz]; simpl in *. subst fn.
        destruct name as [|c n]; [discriminate|].
        split; [|split].
        -- intros ->. reflexivity.
        -- intros size -> -> Hlt. simpl. unfold truthy_int.
           replace (negb (size =? 0)) with true
             by (symmetry; apply negb_true_iff, Z.eqb_neq;
                 unfold max_file_size in Hlt; lia).
           replace (max_file_size <? size) with true
             by (symmetry; by apply Z.ltb_lt).
           reflexivity.
        -- intros size -> -> Hle. simpl.
           replace (max_file_size <? size) with false
             by (symmetry; apply Z.ltb_ge; lia).
           rewrite andb_false_r. reflexivity.
Qed.

(** A model file sent without a session is acknowledged; the same name in
    capitals and too large is rejected. *)
Example standalone_file_acknowledged :
  events (handle_file 7 (Some {| file_name := Some (lit "Part.STL");
                                 file_size := Some 2048 |}))
    (sample_world None ∅ ∅ ∅)
  = [EReply (MsgFileReceived (lit "Part.STL") 2048) None].
Proof. reflexivity. Qed.

Example standalone_file_too_large :
  events (handle_file 7 (Some {| file_name := Some (lit "PART.3MF");
                                 file_size := Some 52428801 |}))
    (sample_world None ∅ ∅ ∅)
  = [EFileError "file_too_large" (Some (lit "PART.3MF"))].
Proof. reflexivity. Qed.

Example file_in_order_flow :
  events (handle_file 7 (Some {| file_name := Some (lit "notes.txt");
                                 file_size := Some 5 |}))
    (sample_world None {[ 7 := sample_session FILE_UPLOAD None None None ]}
       ∅ ∅)
  = [EOrderHandlers handle_file_upload].
Proof. reflexivity. Qed.

(** ** Confirmation *)

(** C3: when Confirm is issued at [CONFIRMATION] and the upstream
    submission fails, the world is unchanged (the session is still at
    [CONFIRMATION] with every field as it was), the outcome is a submission
    failure, and a second Confirm submits the same order again; when the
    submission succeeds, the session is moved to [SUBMITTED] and then
    cleared. *)
Theorem confirm_outcomes (w : World) (uid : Z) (s : OrderSession)
    (api : APIClient) :
  order_handlers (bot w) = true ->
  api_client (bot w) = Some api ->
  SessionManager.get_session (sessions_of w) uid = Some s ->
  step s = CONFIRMATION ->
  let confirm := handle_callback_query uid cb_order_confirm in
  (submit_order api s = None ->
   world_after confirm w = w
   /\ SessionManager.get_session (sessions_of (world_after confirm w)) uid
      = Some s
   /\ result (OrderHandlers.confirm_order uid) w
      = inr OrderHandlers.OrderSubmissionFailed
   /\ events confirm w
      = [EAnswerCallback; EApi (SubmitOrder s);
         EReply MsgOrderSubmissionFailed None]
   /\ EApi (SubmitOrder s) ∈ events confirm (world_after confirm w))
  /\ (forall ref, submit_order api s = Some ref ->
      (exists submitted,
         submitted !! uid = Some (set_step SUBMITTED s)
         /\ step (set_step SUBMITTED s) = SUBMITTED
         /\ sessions_of (world_after confirm w)
            = (SessionManager.clear_session submitted uid).2)
      /\ SessionManager.get_session (sessions_of (world_after confirm w)) uid
         = None
      /\ result (OrderHandlers.confirm_order uid) w
         = inr (OrderHandlers.OrderSubmitted ref)
      /\ events confirm w
         = [EAnswerCallback; EApi (SubmitOrder s);
            EReply (MsgOrderSubmitted ref) None]).
Proof.
  intros Hoh Hapi Hs Hstep confirm. subst confirm.
  unfold sessions_of, SessionManager.get_session in *.
  split.
  - intros Hfail.
    assert (Hrun : handle_callback_query uid cb_order_confirm w
                   = (inr tt, w, [EAnswerCallback; EApi (SubmitOrder s);
                                  EReply MsgOrderSubmissionFailed None])).
    { unfold handle_callback_query, OrderHandlers.confirm_order,
        SessionManager.get_session.
      unfold_monad. simpl. rewrite Hoh, Hs. simpl.
      rewrite bool_decide_eq_true_2 by done. rewrite Hapi. simpl.
      rewrite Hfail. reflexivity. }
    unfold world_after, events, result. rewrite Hrun. simpl.
    rewrite Hrun. simpl.
    repeat split; try done.
    + unfold OrderHandlers.confirm_order, SessionManager.get_session.
      unfold_monad. simpl. rewrite Hs. simpl.
      rewrite bool_decide_eq_true_2 by done. rewrite Hapi. simpl.
      rewrite Hfail. reflexivity.
    + set_solver.
  - intros ref Hok.
    unfold world_after, events, result.
    unfold handle_callback_query, OrderHandlers.confirm_order,
      SessionManager.get_session, SessionManager.update_session,
      SessionManager.clear_session.
    unfold_monad. simpl. rewrite Hoh, Hs. simpl.
    rewrite bool_decide_eq_true_2 by done. rewrite Hapi. simpl.
    rewrite Hok. simpl.
    repeat split; try done.
    + exists (alter (set_step SUBMITTED) uid (session_manager (bot w))).
      split; [|done].
      rewrite lookup_alter_eq, Hs. reflexivity.
    + apply lookup_delete_eq.
Qed.

Lemma confirm_outcomes_witness :
  world_after (handle_callback_query 7 cb_order_confirm)
    (sample_world (Some (sample_api [] None None))
       {[ 7 := sample_session CONFIRMATION (Some (lit "Ann"))
                 (Some (lit "ann@x.com")) (Some []) ]} ∅ ∅)
  = sample_world (Some (sample_api [] None None))
      {[ 7 := sample_session CONFIRMATION (Some (lit "Ann"))
                (Some (lit "ann@x.com")) (Some []) ]} ∅ ∅.
Proof.
  refine (proj1 (proj1 (confirm_outcomes
                   (sample_world (Some (sample_api [] None None))
                      {[ 7 := sample_session CONFIRMATION (Some (lit "Ann"))
                                (Some (lit "ann@x.com")) (Some []) ]} ∅ ∅)
                   7
                   (sample_session CONFIRMATION (Some (lit "Ann"))
                      (Some (lit "ann@x.com")) (Some []))
                   (sample_api [] None None) _ _ _ _) _));
    reflexivity.
Defined.

(** A successful submission clears the session. *)
Example confirm_success_clears :
  sessions_of
    (world_after (handle_callback_query 7 cb_order_confirm)
       (sample_world (Some (sample_api [] None (Some 42)))
          {[ 7 := sample_session CONFIRMATION (Some (lit "Ann"))
                    (Some (lit "ann@x.com")) (Some []) ]} ∅ ∅))
  = ∅.
Proof. by vm_compute. Qed.

(** ** Cancellation *)

(** C4: the cancel command leaves the user without a session, whatever the
    session's step was, and calls nothing upstream and no order handler;
    other users' sessions are untouched; the reply announces a cancellation
    if and only if a session existed. *)
Theorem cancel_clears_session (w : World) (uid : Z) :
  SessionManager.get_session
    (sessions_of (world_after (cancel_command uid) w)) uid = None
  /\ (forall other, other <> uid ->
      SessionManager.get_session
        (sessions_of (world_after (cancel_command uid) w)) other
      = SessionManager.get_session (sessions_of w) other)
  /\ (forall c, EApi c ∉ events (cancel_command uid) w)
  /\ (forall c, EOrderHandlers c ∉ events (cancel_command uid) w)
  /\ (events (cancel_command uid) w = [EReply MsgCancelled None]
      <-> is_Some (SessionManager.get_session (sessions_of w) uid))
  /\ (events (cancel_command uid) w = [EReply MsgNothingToCancel None]
      <-> SessionManager.get_session (sessions_of w) uid = None).
Proof.
  unfold cancel_command, SessionManager.clear_session,
    SessionManager.get_session, sessions_of.
  unfold_monad. simpl.
  split; [apply lookup_delete_eq|].
  split; [intros other Hne; by apply lookup_delete_ne|].
  split; [intros c Hc; apply list_elem_of_singleton in Hc; discriminate|].
  split; [intros c Hc; apply list_elem_of_singleton in Hc; discriminate|].
  destruct (session_manager (bot w) !! uid) as [s|] eqn:Hs.
  - rewrite bool_decide_eq_true_2 by eauto. split; split; try done; eauto.
  - rewrite bool_decide_eq_false_2 by (intros [? [=]]).
    split; split; done.
Qed.

Example cancel_at_confirmation :
  cancel_command 7
    (sample_world None {[ 7 := sample_session CONFIRMATION None None None ]}
       ∅ ∅)
  = (inr tt, sample_world None ∅ ∅ ∅, [EReply MsgCancelled None]).
Proof. by vm_compute. Qed.

(** ** The matcher decides the language of the pattern *)

Lemma seq_inv (a b : regex) (s : pystr) :
  lang (Seq a b) s -> exists s1 s2, s = s1 ++ s2 /\ lang a s1 /\ lang b s2.
Proof. inversion 1; subst; eauto. Qed.

Lemma nullable_lang (r : regex) : nullable r = true <-> lang r [].
Proof.
  induction r as [| |p|a IHa b IHb|a IHa b IHb|a IHa]; simpl.
  - split; [discriminate | inversion 1].
  - split; [constructor | done].
  - split; [discriminate | inversion 1].
  - rewrite andb_true_iff, IHa, IHb. split.
    + intros [Ha Hb]. by apply (LSeq a b [] []).
    + intros (s1 & s2 & Heq & H1 & H2)%seq_inv. symmetry in Heq.
      apply app_eq_nil in Heq as [-> ->]. done.
  - rewrite orb_true_iff, IHa, IHb. split.
    + intros [Ha|Hb]; [by apply LAltL | by apply LAltR].
    + inversion 1; subst; auto.
  - split; [constructor | done].
Qed.

Lemma star_cons_inv (a : regex) (c : N) (s : pystr) :
  lang (Star a) (c :: s) ->
  exists s1 s2, s = s1 ++ s2 /\ lang a (c :: s1) /\ lang (Star a) s2.
Proof.
  intros H. remember (Star a) as r eqn:Hr. remember (c :: s) as cs eqn:Hcs.
  revert s Hr Hcs.
  induction H as [| | | | | |a' u v Hu _ Hv IHv]; intros rest Hr Hcs;
    try discriminate.
  injection Hr as ->. destruct u as [|c' u]; simpl in Hcs.
  - by apply IHv.
  - injection Hcs as -> <-. eauto.
Qed.

Lemma deriv_lang (r : regex) (c : N) (s : pystr) :
  lang (deriv c r) s <-> lang r (c :: s).
Proof.
  revert s.
  induction r as [| |p|a IHa b IHb|a IHa b IHb|a IHa]; intros s; simpl.
  - split; inversion 1.
  - split; inversion 1.
  - destruct (p c) eqn:Hp; split.
    + inversion 1; subst. by constructor.
    + inversion 1; subst. constructor.
    + inversion 1.
    + inversion 1; subst. congruence.
  - assert (Hseq : lang (Seq (deriv c a) b) s ->  lang (Seq a b) (c :: s)).
    { intros (s1 & s2 & -> & H1 & H2)%seq_inv.
      apply IHa in H1. by apply (LSeq a b (c :: s1) s2). }
    assert (Hinv : lang (Seq a b) (c :: s) ->
                   lang (Seq (deriv c a) b) s
                   \/ (lang a [] /\ lang b (c :: s))).
    { intros (s1 & s2 & Heq & H1 & H2)%seq_inv.
      destruct s1 as [|c' s1]; simpl in Heq.
      - subst s2. right. done.
      - injection Heq as <- ->. left. apply LSeq; [by apply IHa | done]. }
    destruct (nullable a) eqn:Hn.
    + split.
      * inversion 1; subst; [by apply Hseq|].
        apply (LSeq a b [] (c :: s)); [by apply nullable_lang | by apply IHb].
      * intros [H|[_ H]]%Hinv; [by apply LAltL | apply LAltR; by apply IHb].
    + split; [exact Hseq|].
      intros [H|[H _]]%Hinv; [done|].
      apply nullable_lang in H. congruence.
  - split.
    + inversion 1; subst;
        [apply LAltL; by apply IHa | apply LAltR; by apply IHb].
    + inversion 1; subst;
        [apply LAltL; by apply IHa | apply LAltR; by apply IHb].
  - split.
    + intros (s1 & s2 & -> & H1 & H2)%seq_inv.
      apply IHa in H1. by apply (LStarCons a (c :: s1) s2).
    + intros (s1 & s2 & -> & H1 & H2)%star_cons_inv.
      apply LSeq; [by apply IHa | done].
Qed.

Lemma matches_lang (r : regex) (s : pystr) : matches r s = true <-> lang r s.
Proof.
  revert r. induction s as [|c s IH]; intros r; simpl.
  - apply nullable_lang.
  - rewrite IH. apply deriv_lang.
Qed.

(** [_validate_email] accepts exactly the non-empty inputs whose stripped
    form belongs to the language of the anchored pattern. *)
Lemma validate_email_lang (e : pystr) :
  _validate_email e = true
  <-> e <> [] /\ lang (Seq email_pattern Dollar) (strip e).
Proof.
  unfold _validate_email, re_match_anchored. destruct e as [|c e].
  - split; [discriminate | by intros [? _]].
  - rewrite matches_lang. split; [by intros H | by intros [_ H]].
Qed.

(** ** Subscriptions *)

Lemma text_without_modes_keeps_world (w : World) (uid : Z) (text : pystr) :
  ~ mode_waiting w "tracking_state" ->
  ~ mode_waiting w "subscription_state" ->
  world_after (handle_text_message uid text) w = w.
Proof.
  unfold mode_waiting. intros Ht Hs.
  unfold world_after, handle_text_message. unfold_monad. simpl.
  rewrite (bool_decide_eq_false_2 _ Ht), (bool_decide_eq_false_2 _ Hs).
  unfold SessionManager.get_session.
  destruct (session_manager (bot w) !! uid) as [s|]; [|reflexivity].
  destruct (order_handlers (bot w)); [|reflexivity].
  destruct (bool_decide (step s = CONTACT_INFO)).
  - destruct (negb (truthy (customer_name s))); [reflexivity|].
    destruct (negb (truthy (customer_email s))); [reflexivity|].
    by destruct (customer_phone s).
  - by destruct (bool_decide (step s = DELIVERY) && delivery_needed s).
Qed.

Lemma subscribe_command_active (w : World) (uid : Z) (old : Subscription) :
  subscriptions_of w !! uid = Some old ->
  is_active old = true ->
  subscribe_command MessageUpdate uid w
  = (inr tt, w,
     [EReply (MsgAlreadySubscribed (email old) (notification_types old))
        None]).
Proof.
  unfold subscriptions_of. intros Hold Hact.
  destruct (notification_service (bot w)) as [[subs]|] eqn:Hns;
    [simpl in Hold | by rewrite lookup_empty in Hold].
  unfold subscribe_command, SubscriptionManager.get_subscription.
  unfold_monad. simpl. rewrite Hns. simpl. rewrite Hold, Hact. reflexivity.
Qed.

(** C5, as stated, fails: user 7 is subscribed with [ann@x.com]; after
    [/subscribe] and the text [new@y.org] the stored email is still
    [ann@x.com]. *)
Lemma active_subscriber_keeps_email : ~ resubscribing_updates_email.
Proof.
  intros H.
  specialize (H (sample_world None ∅ {[ 7 := sample_subscription ]} ∅) 7
                sample_subscription (lit "new@y.org")
                eq_refl eq_refl eq_refl).
  assert (Hno : ~ mode_waiting
                    (sample_world None ∅ {[ 7 := sample_subscription ]} ∅)
                    "tracking_state") by (intros Hm; discriminate Hm).
  specialize (H Hno). vm_compute in H. discriminate H.
Qed.

Example typed_email_after_subscribe_ignored :
  email <$> (subscriptions_of
    (world_after (subscribe_with_email 7 (lit "new@y.org"))
       (sample_world None ∅ {[ 7 := sample_subscription ]} ∅)) !! 7)
  = Some (lit "ann@x.com").
Proof. by vm_compute. Qed.

(** C5, amended: the [/subscribe] command does not open the email dialogue
    for a user whose subscription is active: it reports the stored email
    and notification types and changes nothing, so an email typed next (no
    email mode pending) leaves the record as it was. Where the subscription
    email handler does run for such a user with an accepted email, it
    replaces the stored email and notification types in the same record: no
    error is reported and the set of subscribed users is unchanged. After
    unsubscribing, subscribing again and giving an email, the same record is
    active again. *)
Theorem resubscribe_in_place (w : World) (uid : Z) (old : Subscription)
    (e : pystr) :
  subscriptions_of w !! uid = Some old ->
  is_active old = true ->
  _validate_email e = true ->
  (subscribe_command MessageUpdate uid w
   = (inr tt, w,
      [EReply (MsgAlreadySubscribed (email old) (notification_types old))
         None])
   /\ (~ mode_waiting w "tracking_state" ->
       ~ mode_waiting w "subscription_state" ->
       world_after (subscribe_with_email uid e) w = w))
  /\ (subscriptions_of (world_after (handle_subscription_email uid e) w) !! uid
      = Some (updated_subscription uid e old)
      /\ dom (subscriptions_of
                (world_after (handle_subscription_email uid e) w))
         = dom (subscriptions_of w)
      /\ events (handle_subscription_email uid e) w
         = [EReply (MsgSubscriptionActivated e) None])
  /\ (let w1 := world_after (unsubscribe_command MessageUpdate uid) w in
      let w2 := world_after (subscribe_command MessageUpdate uid) w1 in
      let w3 := world_after (handle_subscription_email uid e) w2 in
      subscriptions_of w1 !! uid = Some (deactivated uid old)
      /\ mode_waiting w2 "subscription_state"
      /\ subscriptions_of w3 !! uid
         = Some (updated_subscription uid e old)
      /\ dom (subscriptions_of w3) = dom (subscriptions_of w)).
Proof.
  intros Hold Hact Hvalid.
  split.
  { pose proof (subscribe_command_active w uid old Hold Hact) as Hcmd.
    split; [exact Hcmd|]. intros Ht Hs.
    unfold subscribe_with_email, world_after. unfold mbind, M_bind.
    rewrite Hcmd. cbn [fst snd].
    pose proof (text_without_modes_keeps_world w uid e Ht Hs) as Hw.
    unfold world_after in Hw.
    destruct (handle_text_message uid e w) as [[r w'] t]. exact Hw. }
  unfold subscriptions_of in *.
  destruct (notification_service (bot w)) as [[subs]|] eqn:Hns;
    [simpl in Hold | by rewrite lookup_empty in Hold].
  assert (Hdom : forall x, dom (<[uid := x]> subs) = dom subs).
  { intros x. apply dom_insert_lookup_L. eauto. }
  split.
  - unfold handle_subscription_email, SubscriptionManager.subscribe_user.
    rewrite Hvalid. unfold_monad. simpl. rewrite Hns. simpl.
    rewrite Hold. simpl.
    split; [apply lookup_insert_eq|]. split; [apply Hdom | reflexivity].
  - unfold unsubscribe_command, subscribe_command, handle_subscription_email,
      SubscriptionManager.subscribe_user, SubscriptionManager.unsubscribe_user,
      SubscriptionManager.get_subscription, mode_waiting.
    rewrite Hvalid. unfold_monad. simpl. rewrite Hns. simpl.
    rewrite Hold, Hact. simpl.
    rewrite !lookup_insert_eq. simpl. rewrite !lookup_insert_eq. simpl.
    split; [reflexivity|]. split; [reflexivity|].
    split; [apply lookup_insert_eq|].
    rewrite dom_insert_lookup_L; [apply Hdom|].
    rewrite lookup_insert_eq. eauto.
Qed.

Lemma resubscribe_in_place_witness :
  subscriptions_of
    (world_after (handle_subscription_email 7 (lit "new@y.org"))
       (sample_world None ∅ {[ 7 := sample_subscription ]} ∅)) !! 7
  = Some (updated_subscription 7 (lit "new@y.org") sample_subscription).
Proof.
  refine (proj1 (proj1 (proj2 (resubscribe_in_place
                          (sample_world None ∅ {[ 7 := sample_subscription ]} ∅)
                          7 sample_subscription (lit "new@y.org") _ _ _))));
    reflexivity.
Defined.

Example second_email_replaces_first :
  email <$> (subscriptions_of
    (world_after (handle_subscription_email 7 (lit "new@y.org"))
       (sample_world None ∅ {[ 7 := sample_subscription ]} ∅)) !! 7)
  = Some (lit "new@y.org").
Proof. by vm_compute. Qed.

(** The [/subscribe] command itself does not open the email dialogue for a
    user whose subscription is active: it reports the subscription. *)
Example subscribe_command_when_active :
  subscribe_command MessageUpdate 7
    (sample_world None ∅ {[ 7 := sample_subscription ]} ∅)
  = (inr tt, sample_world None ∅ {[ 7 := sample_subscription ]} ∅,
     [EReply (MsgAlreadySubscribed (lit "ann@x.com") all_notification_types)
        None]).
Proof. reflexivity. Qed.

(** ** Service selection *)

Lemma find_service_not_listed services id :
  find_service services id = None <-> not_listed services id.
Proof.
  unfold find_service, not_listed. induction services as [|s l IH]; simpl.
  - split; [|done]. intros _ s Hs. by apply elem_of_nil in Hs.
  - case_bool_decide as Hid.
    + split; [discriminate|]. intros H. exfalso. apply (H s); [left | done].
    + rewrite IH. split.
      * intros H s' [->|Hin]%elem_of_cons; [done | by apply H].
      * intros H s' Hin. apply H. by right.
Qed.

Lemma fetch_services_ok w api services :
  api_client (bot w) = Some api ->
  get_services api true = Some services ->
  fetch_services w = (inr services, w, [EApi (GetServices true)]).
Proof.
  intros Hapi Hsv. unfold fetch_services. unfold_monad. simpl.
  rewrite Hapi. simpl. rewrite Hsv. reflexivity.
Qed.

Lemma not_found_trace_has_no_catalog :
  ~ displays_catalog [EApi (GetServices true); EReply MsgServiceNotFound None].
Proof.
  intros (m & kb & Hm & [Hin|Hin]).
  - apply elem_of_cons in Hin as [Heq|Hin]; [discriminate|].
    apply list_elem_of_singleton in Hin. injection Hin as -> _. discriminate.
  - apply elem_of_cons in Hin as [Heq|Hin]; [discriminate|].
    apply list_elem_of_singleton in Hin. discriminate.
Qed.

Lemma stale_selection_run (w : World) (api : APIClient)
    (services : list Service) (id : Z) :
  api_client (bot w) = Some api ->
  get_services api true = Some services ->
  not_listed services id ->
  handle_service_selection CallbackUpdate id w
  = (inr tt, w, [EApi (GetServices true); EReply MsgServiceNotFound None]).
Proof.
  intros Hapi Hsv Hnl. apply find_service_not_listed in Hnl.
  unfold handle_service_selection. unfold try_except, mbind, M_bind.
  rewrite (fetch_services_ok w api services Hapi Hsv), Hnl. reflexivity.
Qed.

(** Service 2 selected while the listing holds service 1 only. *)
Example stale_selection_trace :
  events (handle_service_selection CallbackUpdate 2)
    (sample_world (Some (sample_api [sample_service 1] None None)) ∅ ∅ ∅)
  = [EApi (GetServices true); EReply MsgServiceNotFound None].
Proof. reflexivity. Qed.

(** C6, as stated, fails: selecting service 2 from a listing that holds
    service 1 only sends the not-found text and no catalog. *)
Lemma stale_selection_shows_no_catalog :
  ~ stale_selection_redisplays_catalog.
Proof.
  intros H. apply not_found_trace_has_no_catalog.
  change [EApi (GetServices true); EReply MsgServiceNotFound None]
    with (events (handle_service_selection CallbackUpdate 2)
            (sample_world (Some (sample_api [sample_service 1] None None))
               ∅ ∅ ∅)).
  apply (H _ (sample_api [sample_service 1] None None) [sample_service 1] 2);
    try reflexivity.
  intros s Hs%list_elem_of_singleton. subst s. discriminate.
Qed.

(** C6, amended: selecting a service id that is not in the currently
    fetched active listing fails as an invalid selection: the user is sent
    the not-found text, which asks to choose another service from the
    catalog; the catalog itself is not displayed again; nothing is mutated,
    in particular no session. *)
Theorem stale_selection_not_found (w : World) (api : APIClient)
    (services : list Service) (id : Z) :
  api_client (bot w) = Some api ->
  get_services api true = Some services ->
  not_listed services id ->
  events (handle_service_selection CallbackUpdate id) w
  = [EApi (GetServices true); EReply MsgServiceNotFound None]
  /\ ~ displays_catalog (events (handle_service_selection CallbackUpdate id) w)
  /\ world_after (handle_service_selection CallbackUpdate id) w = w.
Proof.
  intros Hapi Hsv Hnl.
  unfold events, world_after.
  rewrite (stale_selection_run w api services id Hapi Hsv Hnl). simpl.
  split; [reflexivity|]. split; [apply not_found_trace_has_no_catalog | done].
Qed.

Lemma stale_selection_not_found_witness :
  world_after (handle_service_selection CallbackUpdate 2)
    (sample_world (Some (sample_api [sample_service 1] None None)) ∅ ∅ ∅)
  = sample_world (Some (sample_api [sample_service 1] None None)) ∅ ∅ ∅.
Proof.
  refine (proj2 (proj2 (stale_selection_not_found
                          (sample_world
                             (Some (sample_api [sample_service 1] None None))
                             ∅ ∅ ∅)
                          (sample_api [sample_service 1] None None)
                          [sample_service 1] 2 _ _ _))).
  - reflexivity.
  - reflexivity.
  - intros s Hs%list_elem_of_singleton. subst s. vm_compute. discriminate.
Defined.

(** A listed service is shown with its order button. *)
Example listed_selection_trace :
  events (handle_service_selection CallbackUpdate 1)
    (sample_world (Some (sample_api [sample_service 1] None None)) ∅ ∅ ∅)
  = [EApi (GetServices true);
     EEdit (MsgServiceDetails (lit "Print") no_description general_category [])
       (Some (service_details_keyboard 1))].
Proof. reflexivity. Qed.

(** ** Email input *)

(** C7: an email text that fails validation (it is empty, or after
    stripping surrounding whitespace it does not match the pattern) makes
    the subscription handler and the tracking handler re-prompt and change
    nothing: the pending mode stays, no subscription is created or updated,
    and no order lookup is made; the same holds when the text arrives
    through the text dispatcher in either pending mode. *)
Theorem invalid_email_reprompts (w : World) (uid : Z) (e : pystr) :
  e = [] \/ re_match_anchored email_pattern (strip e) = false ->
  (handle_subscription_email uid e w
   = (inr tt, w, [EReply MsgInvalidEmail None])
   /\ handle_tracking_email e w = (inr tt, w, [EReply MsgInvalidEmail None]))
  /\ (mode_waiting w "tracking_state" ->
      handle_text_message uid e w = (inr tt, w, [EReply MsgInvalidEmail None]))
  /\ (mode_waiting w "subscription_state" ->
      handle_text_message uid e w = (inr tt, w, [EReply MsgInvalidEmail None])).
Proof.
  intros He.
  assert (Hv : _validate_email e = false).
  { unfold _validate_email. destruct He as [-> | He]; [reflexivity|].
    destruct e; [reflexivity | exact He]. }
  assert (Hs : handle_subscription_email uid e w
               = (inr tt, w, [EReply MsgInvalidEmail None])).
  { unfold handle_subscription_email. rewrite Hv. reflexivity. }
  assert (Ht : handle_tracking_email e w
               = (inr tt, w, [EReply MsgInvalidEmail None])).
  { unfold handle_tracking_email. rewrite Hv. reflexivity. }
  split; [done|]. unfold mode_waiting.
  split; intros Hm; unfold handle_text_message;
    unfold mbind, M_bind, get_user_data.
  - rewrite bool_decide_eq_true_2 by done. by rewrite Ht.
  - case_bool_decide; [by rewrite Ht|].
    rewrite bool_decide_eq_true_2 by done. by rewrite Hs.
Qed.

Lemma invalid_email_reprompts_witness :
  handle_text_message 7 (lit "not an email")
    (sample_world None ∅ ∅ {[ "subscription_state"%string := waiting_for_email ]})
  = (inr tt,
     sample_world None ∅ ∅ {[ "subscription_state"%string := waiting_for_email ]},
     [EReply MsgInvalidEmail None]).
Proof.
  refine (proj2 (proj2 (invalid_email_reprompts
                          (sample_world None ∅ ∅
                             {[ "subscription_state"%string
                                := waiting_for_email ]})
                          7 (lit "not an email") _)) _).
  - right. reflexivity.
  - reflexivity.
Defined.

(** ** Email modes come before the order flow *)

Lemma tracking_email_keeps_out (w : World) (e : pystr) :
  keeps_order_flow_out (handle_tracking_email e) w.
Proof.
  unfold keeps_order_flow_out, handle_tracking_email, fetch_orders_by_email,
    show_orders_list, sessions_of.
  destruct (_validate_email e); simpl; [|done].
  unfold_monad. simpl.
  destruct (api_client (bot w)) as [api|]; simpl; [|done].
  destruct (get_orders_by_email api e) as [[|o l]|]; simpl; done.
Qed.

Lemma subscription_email_keeps_out (w : World) (uid : Z) (e : pystr) :
  keeps_order_flow_out (handle_subscription_email uid e) w.
Proof.
  unfold keeps_order_flow_out, handle_subscription_email,
    SubscriptionManager.subscribe_user, sessions_of.
  destruct (_validate_email e); simpl; [|done].
  unfold_monad. simpl.
  destruct (notification_service (bot w)) as [[subs]|]; simpl; [|done].
  destruct (subs !! uid); simpl; done.
Qed.

Lemma no_order_call (t : list Event) :
  forallb (fun e => negb (is_order_call e)) t = true ->
  forall c, EOrderHandlers c ∉ t.
Proof.
  intros H c Hin. rewrite forallb_forall in H.
  apply list_elem_of_In in Hin. specialize (H _ Hin). discriminate.
Qed.

(** C8: while the chat's tracking or subscription mode waits for an email,
    a text is handled by that email handler (tracking first); no order
    handler is called with it, whatever the user's order session, and the
    session store is left as it was. *)
Theorem email_modes_preempt_order_flow (w : World) (uid : Z) (text : pystr) :
  mode_waiting w "tracking_state" \/ mode_waiting w "subscription_state" ->
  (handle_text_message uid text w = handle_tracking_email text w
   \/ handle_text_message uid text w = handle_subscription_email uid text w)
  /\ (mode_waiting w "tracking_state" ->
      handle_text_message uid text w = handle_tracking_email text w)
  /\ (forall c, EOrderHandlers c ∉ events (handle_text_message uid text) w)
  /\ sessions_of (world_after (handle_text_message uid text) w) = sessions_of w.
Proof.
  unfold mode_waiting. intros Hmode.
  assert (Hrun : (mode_waiting w "tracking_state"
                  /\ handle_text_message uid text w
                     = handle_tracking_email text w)
                 \/ (~ mode_waiting w "tracking_state"
                     /\ handle_text_message uid text w
                        = handle_subscription_email uid text w)).
  { unfold mode_waiting, handle_text_message.
    unfold mbind, M_bind, get_user_data.
    case_bool_decide as Ht.
    - left. split; [done|].
      by destruct (handle_tracking_email text w) as [[[]]].
    - right. split; [done|]. destruct Hmode as [|Hs]; [done|].
      rewrite bool_decide_eq_true_2 by done.
      by destruct (handle_subscription_email uid text w) as [[[]]]. }
  split; [destruct Hrun as [[_ ->]|[_ ->]]; auto|].
  split; [intros Ht; destruct Hrun as [[_ ->]|[Hn _]]; done|].
  unfold events, world_after.
  destruct Hrun as [[_ ->]|[_ ->]].
  - destruct (tracking_email_keeps_out w text) as [Hev Hs].
    split; [by apply no_order_call | exact Hs].
  - destruct (subscription_email_keeps_out w uid text) as [Hev Hs].
    split; [by apply no_order_call | exact Hs].
Qed.

Lemma email_modes_preempt_order_flow_witness :
  sessions_of
    (world_after (handle_text_message 7 (lit "ann@x.com"))
       (sample_world None
          {[ 7 := sample_session CONTACT_INFO None None None ]} ∅
          {[ "subscription_state"%string := waiting_for_email ]}))
  = {[ 7 := sample_session CONTACT_INFO None None None ]}.
Proof.
  refine (proj2 (proj2 (proj2 (email_modes_preempt_order_flow
                   (sample_world None
                      {[ 7 := sample_session CONTACT_INFO None None None ]} ∅
                      {[ "subscription_state"%string := waiting_for_email ]})
                   7 (lit "ann@x.com") _)))).
  right. reflexivity.
Defined.

(** The email typed in subscription mode subscribes the user and is not
    taken as the customer's name. *)
Example subscription_email_beside_session :
  events (handle_text_message 7 (lit "ann@x.com"))
    (sample_world None
       {[ 7 := sample_session CONTACT_INFO None None None ]} ∅
       {[ "subscription_state"%string := waiting_for_email ]})
  = [EReply (MsgSubscriptionActivated (lit "ann@x.com")) None].
Proof. reflexivity. Qed.

(** ** Catalog pages *)

Lemma total_pages_ceil (n : Z) : total_pages_of n = ceil_div n 5.
Proof.
  unfold total_pages_of, ceil_div, services_per_page.
  pose proof (Z.div_mod (n + 5 - 1) 5 ltac:(lia)).
  pose proof (Z.mod_pos_bound (n + 5 - 1) 5 ltac:(lia)).
  pose proof (Z.div_mod (- n) 5 ltac:(lia)).
  pose proof (Z.mod_pos_bound (- n) 5 ltac:(lia)).
  lia.
Qed.

Lemma py_slice_page {A : Type} (l : list A) (p : Z) :
  0 <= p ->
  py_slice l (p * 5) (Z.min (p * 5 + 5) (Z.of_nat (length l)))
  = take 5 (drop (Z.to_nat (p * 5)) l).
Proof.
  intros Hp. unfold py_slice, slice_index.
  set (n := Z.of_nat (length l)).
  replace (p * 5 <? 0) with false by (symmetry; apply Z.ltb_ge; lia).
  replace (Z.min (p * 5 + 5) n <? 0) with false
    by (symmetry; apply Z.ltb_ge; lia).
  destruct (Z.le_gt_cases n (p * 5)) as [Hge|Hlt].
  - rewrite !drop_ge by lia. by rewrite !take_nil.
  - replace (Z.to_nat (Z.min (p * 5) n)) with (Z.to_nat (p * 5)) by lia.
    destruct (Z.le_gt_cases (p * 5 + 5) n) as [Hfull|Hpart].
    + f_equal. lia.
    + rewrite !take_ge;
        [done | rewrite length_drop; lia | rewrite length_drop; lia].
Qed.

Lemma py_slice_last_page {A : Type} (l : list A) :
  py_slice l (-1 * 5) (Z.min (-1 * 5 + 5) (Z.of_nat (length l))) = [].
Proof.
  unfold py_slice, slice_index.
  set (n := Z.of_nat (length l)).
  replace (Z.min (-1 * 5 + 5) n) with 0 by lia.
  change (-1 * 5 <? 0) with true. change (0 <? 0) with false. cbv iota.
  replace (Z.to_nat (Z.min 0 n - Z.max (-1 * 5 + n) 0)) with 0%nat by lia.
  apply take_0.
Qed.

Lemma py_slice_from_end {A : Type} (l : list A) (p : Z) :
  p < -1 ->
  py_slice l (p * 5) (Z.min (p * 5 + 5) (Z.of_nat (length l)))
  = drop (Z.to_nat (Z.of_nat (length l) + 5 * p))
      (take (Z.to_nat (Z.of_nat (length l) + 5 * p + 5)) l).
Proof.
  intros Hp. unfold py_slice, slice_index.
  set (n := Z.of_nat (length l)).
  replace (Z.min (p * 5 + 5) n) with (p * 5 + 5) by lia.
  replace (p * 5 <? 0) with true by (symmetry; apply Z.ltb_lt; lia).
  replace (p * 5 + 5 <? 0) with true by (symmetry; apply Z.ltb_lt; lia).
  rewrite take_drop_commute. f_equal; [lia|]. f_equal. lia.
Qed.

Lemma service_buttons_select (l : list Service) :
  forall b, b ∈ concat (service_buttons l) -> is_select b = true.
Proof.
  induction l as [|s l IH]; simpl; intros b Hb.
  - by apply elem_of_nil in Hb.
  - destruct (svc_id s) as [id|]; [|by apply IH].
    destruct (truthy_int (Some id)); [|by apply IH].
    simpl in Hb. apply elem_of_cons in Hb as [->|Hb]; [done | by apply IH].
Qed.

Lemma catalog_keyboard_prev (services : list Service) (p : Z) :
  (exists b, b ∈ buttons_of (catalog_keyboard services p) /\ is_prev b = true)
  <-> 0 < p.
Proof.
  unfold buttons_of, catalog_keyboard, pagination_row.
  set (tp := total_pages_of _). set (sb := service_buttons _).
  split.
  - intros (b & Hin & Hb). rewrite !concat_app in Hin.
    apply elem_of_app in Hin as [Hin|Hin].
    { apply service_buttons_select in Hin. by destruct b. }
    destruct (0 <? p) eqn:Hp; [by apply Z.ltb_lt|].
    destruct (p <? tp - 1); simpl in Hin;
      repeat (apply elem_of_cons in Hin as [->|Hin]; [discriminate|]);
      by apply elem_of_nil in Hin.
  - intros Hp. exists (BtnPrevPage (p - 1)). split; [|done].
    rewrite !concat_app. apply elem_of_app. right.
    replace (0 <? p) with true by (symmetry; by apply Z.ltb_lt).
    simpl. left.
Qed.

Lemma catalog_keyboard_next (services : list Service) (p : Z) :
  (exists b, b ∈ buttons_of (catalog_keyboard services p) /\ is_next b = true)
  <-> p < total_pages_of (Z.of_nat (length services)) - 1.
Proof.
  unfold buttons_of, catalog_keyboard, pagination_row.
  set (tp := total_pages_of _). set (sb := service_buttons _).
  split.
  - intros (b & Hin & Hb). rewrite !concat_app in Hin.
    apply elem_of_app in Hin as [Hin|Hin].
    { apply service_buttons_select in Hin. by destruct b. }
    destruct (p <? tp - 1) eqn:Hp; [by apply Z.ltb_lt|].
    destruct (0 <? p); simpl in Hin;
      repeat (apply elem_of_cons in Hin as [->|Hin]; [discriminate|]);
      by apply elem_of_nil in Hin.
  - intros Hp. exists (BtnNextPage (p + 1)). split; [|done].
    rewrite !concat_app. apply elem_of_app. right.
    replace (p <? tp - 1) with true by (symmetry; by apply Z.ltb_lt).
    destruct (0 <? p); simpl; [right; left | left].
Qed.

Lemma catalog_entries_names (i : Z) (l : list Service) :
  map entry_name (catalog_entries i l)
  = map (fun s => default untitled (svc_name s)) l.
Proof.
  revert i. induction l as [|s l IH]; intros i; simpl; [done|]. by rewrite IH.
Qed.

(** C9: for a non-empty listing of [n] services and any page index [p],
    the catalog lists exactly [services[5*p : min(5*p+5, n)]], numbered from
    [5*p+1]. For [p >= 0] these are the five services after the first
    [5*p], or as many as remain; for [p = -1] the slice ends at index 0 and
    is empty; for [p < -1] both bounds count from the end, and the page
    holds the services at positions [n+5*p] to [n+5*p+4], as far as they
    exist. The keyboard has a previous-page button if and only if [p > 0]
    and a next-page button if and only if [p < ceil(n/5) - 1]. *)
Theorem catalog_pagination (w : World) (api : APIClient)
    (services : list Service) (p : Z) (u : Update) :
  api_client (bot w) = Some api ->
  get_services api true = Some services ->
  services <> [] ->
  let n := Z.of_nat (length services) in
  let page_services := py_slice services (5 * p) (Z.min (5 * p + 5) n) in
  exists entries info kb,
    events (show_services_catalog u p) w
    = [EApi (GetServices true); sent u (MsgCatalog entries info) (Some kb)]
    /\ entries = catalog_entries (5 * p + 1) page_services
    /\ map entry_name entries
       = map (fun s => default untitled (svc_name s)) page_services
    /\ (0 <= p -> page_services = take 5 (drop (Z.to_nat (5 * p)) services))
    /\ (p = -1 -> page_services = [])
    /\ (p < -1 ->
        page_services
        = drop (Z.to_nat (n + 5 * p)) (take (Z.to_nat (n + 5 * p + 5)) services))
    /\ ((exists b, b ∈ buttons_of kb /\ is_prev b = true) <-> 0 < p)
    /\ ((exists b, b ∈ buttons_of kb /\ is_next b = true)
        <-> p < ceil_div n 5 - 1).
Proof.
  intros Hapi Hsv Hne n page_services.
  exists (catalog_entries (5 * p + 1) page_services).
  eexists. exists (catalog_keyboard services p).
  split.
  - unfold events, show_services_catalog. unfold try_except, mbind, M_bind.
    rewrite (fetch_services_ok w api services Hapi Hsv).
    destruct services as [|s l]; [done|].
    unfold _send_or_edit_message, emit, catalog_message, page_services_of,
      services_per_page.
    subst page_services n. rewrite (Z.mul_comm 5 p).
    destruct u; reflexivity.
  - split; [reflexivity|]. split; [apply catalog_entries_names|].
    split.
    { intros Hp. subst page_services n. rewrite (Z.mul_comm 5 p).
      by apply py_slice_page. }
    split.
    { intros ->. subst page_services n. apply py_slice_last_page. }
    split.
    { intros Hp. subst page_services n. rewrite (Z.mul_comm 5 p) at 1 2.
      by apply py_slice_from_end. }
    split; [apply catalog_keyboard_prev|].
    subst n. rewrite <- total_pages_ceil. apply catalog_keyboard_next.
Qed.

Lemma catalog_pagination_witness :
  exists entries info kb,
    events (show_services_catalog CallbackUpdate 1)
      (sample_world (Some (sample_api seven_services None None)) ∅ ∅ ∅)
    = [EApi (GetServices true);
       sent CallbackUpdate (MsgCatalog entries info) (Some kb)]
    /\ entries
       = catalog_entries 6
           (py_slice seven_services 5
              (Z.min 10 (Z.of_nat (length seven_services)))).
Proof.
  destruct (catalog_pagination
              (sample_world (Some (sample_api seven_services None None))
                 ∅ ∅ ∅)
              (sample_api seven_services None None) seven_services 1
              CallbackUpdate eq_refl eq_refl ltac:(discriminate))
    as (entries & info & kb & Hev & Hentries & _).
  exists entries, info, kb. split; [exact Hev | exact Hentries].
Defined.

(** Seven services: the second page lists services 6 and 7, has a
    previous-page button and no next-page button. *)
Example second_page_of_seven :
  events (show_services_catalog CallbackUpdate 1)
    (sample_world (Some (sample_api seven_services None None)) ∅ ∅ ∅)
  = [EApi (GetServices true);
     EEdit
       (MsgCatalog
          [ {| entry_number := 6; entry_name := lit "Print";
               entry_description := [] |};
            {| entry_number := 7; entry_name := lit "Print";
               entry_description := [] |} ]
          (Some (2, 2)))
       (Some [ [BtnSelectService (shopping_bags ++ lit "Print") 6];
               [BtnSelectService (shopping_bags ++ lit "Print") 7];
               [BtnPrevPage 0];
               [BtnMainMenu] ])].
Proof. reflexivity. Qed.

(** Seven services, page [-2]: the slice [services[-10:-5]] holds the first
    two services, numbered from [-9]; there is a next-page button and no
    previous-page button. *)
Example page_minus_two_of_seven :
  events (show_services_catalog CallbackUpdate (-2))
    (sample_world (Some (sample_api seven_services None None)) ∅ ∅ ∅)
  = [EApi (GetServices true);
     EEdit
       (MsgCatalog
          [ {| entry_number := -9; entry_name := lit "Print";
               entry_description := [] |};
            {| entry_number := -8; entry_name := lit "Print";
               entry_description := [] |} ]
          (Some (-1, 2)))
       (Some [ [BtnSelectService (shopping_bags ++ lit "Print") 1];
               [BtnSelectService (shopping_bags ++ lit "Print") 2];
               [BtnNextPage (-1)];
               [BtnMainMenu] ])].
Proof. reflexivity. Qed.

(** Page [-1] of the same listing is empty: [services[-5:0]]. *)
Example page_minus_one_of_seven :
  events (show_services_catalog CallbackUpdate (-1))
    (sample_world (Some (sample_api seven_services None None)) ∅ ∅ ∅)
  = [EApi (GetServices true);
     EEdit (MsgCatalog [] (Some (0, 2)))
       (Some [ [BtnNextPage 0]; [BtnMainMenu] ])].
Proof. reflexivity. Qed.

(** ** Orders list *)

Lemma compare_antisym (a b : pystr) :
  PyStr.compare b a = CompOpp (PyStr.compare a b).
Proof.
  revert b. induction a as [|x a IH]; intros [|y b]; simpl; try reflexivity.
  rewrite (N.compare_antisym x y).
  destruct (x ?= y)%N; simpl; auto.
Qed.

Lemma ge_trans (a b c : pystr) : PyStr.ge a b -> PyStr.ge b c -> PyStr.ge a c.
Proof.
  unfold PyStr.ge. revert b c.
  induction a as [|x a IH]; intros [|y b] [|z c]; simpl; try done.
  destruct (N.compare_spec x y) as [->|Hxy|Hxy]; try done.
  - destruct (N.compare_spec y z) as [->|Hyz|Hyz]; try done. apply IH.
  - destruct (N.compare_spec y z) as [->|Hyz|Hyz]; try done.
    + intros _ _. destruct (N.compare_spec x z); try done; lia.
    + intros _ _. destruct (N.compare_spec x z); try done; lia.
Qed.

Lemma not_ltb_ge (a b : pystr) : PyStr.ltb a b = false -> PyStr.ge a b.
Proof. unfold PyStr.ltb, PyStr.ge. by destruct (PyStr.compare a b). Qed.

Lemma ltb_ge_flip (a b : pystr) : PyStr.ltb a b = true -> PyStr.ge b a.
Proof.
  unfold PyStr.ltb, PyStr.ge. rewrite (compare_antisym a b).
  by destruct (PyStr.compare a b).
Qed.

Section Sorting.
Context {A : Type} (key : A -> pystr).

Lemma insert_desc_perm (x : A) (l : list A) :
  Permutation (x :: l) (insert_desc key x l).
Proof.
  induction l as [|y l IH]; simpl; [done|].
  destruct (PyStr.ltb (key x) (key y)); [|done].
  rewrite perm_swap. by constructor.
Qed.

Lemma insert_desc_sorted (x : A) (l : list A) :
  StronglySorted (key_ge key) l ->
  StronglySorted (key_ge key) (insert_desc key x l).
Proof.
  induction 1 as [|y l Hl IH Hy]; simpl.
  - repeat constructor.
  - destruct (PyStr.ltb (key x) (key y)) eqn:Hlt.
    + constructor; [exact IH|].
      rewrite <- (insert_desc_perm x l). constructor; [|exact Hy].
      by apply ltb_ge_flip.
    + apply not_ltb_ge in Hlt.
      constructor; [by constructor|].
      constructor; [exact Hlt|].
      eapply List.Forall_impl; [|exact Hy].
      intros z Hz. unfold key_ge in *. by eapply ge_trans.
Qed.

Lemma sorted_reverse_perm (l : list A) :
  Permutation l (sorted_reverse key l).
Proof.
  unfold sorted_reverse. induction l as [|x l IH]; simpl; [done|].
  rewrite <- insert_desc_perm. by constructor.
Qed.

Lemma sorted_reverse_sorted (l : list A) :
  StronglySorted (key_ge key) (sorted_reverse key l).
Proof.
  unfold sorted_reverse. induction l as [|x l IH]; simpl; [constructor|].
  by apply insert_desc_sorted.
Qed.

End Sorting.

Lemma ge_nil (b : pystr) : PyStr.ge [] b -> b = [].
Proof. unfold PyStr.ge. destruct b; simpl; done. Qed.

Lemma created_at_key_order (a b : Order) :
  key_ge created_at_key a b -> newer_or_same a b.
Proof.
  unfold key_ge, created_at_key, newer_or_same.
  destruct (order_created_at a) as [x|], (order_created_at b) as [y|];
    simpl; [done | done | apply ge_nil | done].
Qed.

Lemma StronglySorted_weaken {A : Type} (R S : A -> A -> Prop) (l : list A) :
  (forall a b, R a b -> S a b) -> StronglySorted R l -> StronglySorted S l.
Proof.
  intros HRS. induction 1 as [|x l Hl IH Hx]; constructor; [exact IH|].
  eapply List.Forall_impl; [|exact Hx]. intros b. apply HRS.
Qed.

Lemma order_entries_shown (i : Z) (l : list Order) :
  map order_shown (order_entries i l) = l.
Proof.
  revert i. induction l as [|o l IH]; intros i; simpl; [done|]. by rewrite IH.
Qed.

Lemma fetch_orders_ok w api e orders :
  api_client (bot w) = Some api ->
  get_orders_by_email api e = Some orders ->
  fetch_orders_by_email e w = (inr orders, w, [EApi (GetOrdersByEmail e)]).
Proof.
  intros Hapi Ho. unfold fetch_orders_by_email. unfold_monad. simpl.
  rewrite Hapi. simpl. rewrite Ho. reflexivity.
Qed.

(** C10: for a non-empty result of the tracking lookup, the orders are
    sorted by [created_at], descending (newest first): the displayed list is
    a rearrangement of the lookup result in which no order comes before one
    with a greater [created_at], orders without a date coming last; the
    first ten of the sorted list, and no others, are listed and get a
    details button each; the orders beyond ten are only counted in the
    summary line. *)
Theorem orders_newest_first (w : World) (api : APIClient) (e : pystr)
    (orders : list Order) :
  _validate_email e = true ->
  api_client (bot w) = Some api ->
  get_orders_by_email api e = Some orders ->
  orders <> [] ->
  exists sorted_orders entries more kb,
    events (handle_tracking_email e) w
    = [EReply MsgSearchingOrders None; EApi (GetOrdersByEmail e);
       EDeleteMessage;
       EReply (MsgOrdersList (Z.of_nat (length orders)) e entries more)
         (Some kb)]
    /\ Permutation orders sorted_orders
    /\ StronglySorted newer_or_same sorted_orders
    /\ map order_shown entries = take 10 sorted_orders
    /\ (length entries <= 10)%nat
    /\ filter (fun b => is_order_details b = true) (buttons_of kb)
       = map (fun o => BtnOrderDetails (order_id o)) (take 10 sorted_orders)
    /\ more = (if 10 <? Z.of_nat (length orders)
               then Some (Z.of_nat (length orders) - 10) else None).
Proof.
  intros Hv Hapi Ho Hne.
  exists (sorted_reverse created_at_key orders).
  exists (order_entries 1 (take 10 (sorted_reverse created_at_key orders))).
  eexists.
  exists (order_buttons (take 10 (sorted_reverse created_at_key orders))
          ++ orders_navigation).
  split.
  - unfold events, handle_tracking_email. rewrite Hv. simpl.
    unfold try_except, mbind, M_bind. simpl.
    rewrite (fetch_orders_ok w api e orders Hapi Ho). simpl.
    destruct orders as [|o l]; [done|]. reflexivity.
  - split; [apply sorted_reverse_perm|].
    split.
    { apply (StronglySorted_weaken (key_ge created_at_key));
        [apply created_at_key_order | apply sorted_reverse_sorted]. }
    split; [apply order_entries_shown|].
    split.
    { rewrite <- (length_map order_shown), order_entries_shown, length_take.
      lia. }
    split; [|reflexivity].
    unfold buttons_of, order_buttons. rewrite concat_app, filter_app. simpl.
    rewrite app_nil_r.
    induction (take 10 (sorted_reverse created_at_key orders))
      as [|o l IH]; simpl; [done|].
    rewrite filter_cons_True by done. by rewrite IH.
Qed.

Lemma orders_newest_first_witness :
  exists sorted_orders entries more kb,
    events (handle_tracking_email (lit "ann@x.com"))
      (sample_world (Some (sample_api [] (Some three_orders) None)) ∅ ∅ ∅)
    = [EReply MsgSearchingOrders None;
       EApi (GetOrdersByEmail (lit "ann@x.com")); EDeleteMessage;
       EReply (MsgOrdersList 3 (lit "ann@x.com") entries more) (Some kb)]
    /\ StronglySorted newer_or_same sorted_orders
    /\ map order_shown entries = take 10 sorted_orders.
Proof.
  destruct (orders_newest_first
              (sample_world (Some (sample_api [] (Some three_orders) None))
                 ∅ ∅ ∅)
              (sample_api [] (Some three_orders) None) (lit "ann@x.com")
              three_orders eq_refl eq_refl eq_refl ltac:(discriminate))
    as (sorted_orders & entries & more & kb & Hev & _ & Hsorted & Hshown & _).
  exists sorted_orders, entries, more, kb. auto.
Defined.

Example three_orders_sorted :
  map order_id (sorted_reverse created_at_key three_orders)
  = [Some 2; Some 3; Some 1].
Proof. reflexivity. Qed.

(** Orders with the same [created_at] keep the order of the lookup. *)
Example equal_dates_keep_order :
  map order_id
    (sorted_reverse created_at_key
       [sample_order 1 "2024-01-05"; sample_order 2 "2024-01-05";
        sample_order 3 "2024-02-10"; sample_order 4 "2024-01-05"])
  = [Some 3; Some 1; Some 2; Some 4].
Proof. reflexivity. Qed.

(* ================================================================== *)
(** * Further properties *)
(* ================================================================== *)

(** ** More on email validation *)

Lemma lstrip_spaces (l s : pystr) :
  Forall (fun c => isspace c = true) l -> lstrip (l ++ s) = lstrip s.
Proof.
  induction 1 as [|c l Hc _ IH]; simpl; [done|]. by rewrite Hc.
Qed.

Lemma lstrip_app (s r : pystr) :
  lstrip (s ++ r) = match lstrip s with [] => lstrip r | t => t ++ r end.
Proof.
  induction s as [|c s IH]; simpl; [by destruct (lstrip r)|].
  destruct (isspace c); [exact IH | reflexivity].
Qed.

Lemma lstrip_all_spaces (s : pystr) :
  Forall (fun c => isspace c = true) s -> lstrip s = [].
Proof. induction 1 as [|c s Hc _ IH]; simpl; [done|]. by rewrite Hc. Qed.

Lemma rstrip_spaces (s r : pystr) :
  Forall (fun c => isspace c = true) r -> rstrip (s ++ r) = rstrip s.
Proof.
  intros Hr. unfold rstrip. rewrite rev_app_distr.
  rewrite lstrip_spaces; [done|]. by apply Forall_rev.
Qed.

Lemma strip_padding (l e r : pystr) :
  Forall (fun c => isspace c = true) l ->
  Forall (fun c => isspace c = true) r ->
  strip (l ++ e ++ r) = strip e.
Proof.
  intros Hl Hr. unfold strip. rewrite (lstrip_spaces l _ Hl), lstrip_app.
  destruct (lstrip e) as [|c t] eqn:He.
  - by rewrite (lstrip_all_spaces r Hr).
  - by apply rstrip_spaces.
Qed.

Lemma validate_as_match (e : pystr) :
  _validate_email e = re_match_anchored email_pattern (strip e).
Proof. destruct e; reflexivity. Qed.

Lemma lstrip_head (s : pystr) (c : N) (t : pystr) :
  lstrip s = c :: t -> isspace c = false.
Proof.
  induction s as [|d s IH]; simpl; [discriminate|].
  destruct (isspace d) eqn:Hd; [exact IH|]. by intros [= <- _].
Qed.

Lemma strip_last (e s : pystr) (c : N) :
  strip e = s ++ [c] -> isspace c = false.
Proof.
  unfold strip, rstrip. intros H.
  apply (f_equal (@rev N)) in H. rewrite rev_involutive, rev_app_distr in H.
  simpl in H. by apply lstrip_head in H.
Qed.

Lemma lang_class (p : N -> bool) (s : pystr) :
  lang (Class p) s <-> exists c, s = [c] /\ p c = true.
Proof.
  split; [inversion 1; subst; eauto | intros (c & -> & Hc); by constructor].
Qed.

Lemma lang_star_class (p : N -> bool) (s : pystr) :
  lang (Star (Class p)) s <-> Forall (fun c => p c = true) s.
Proof.
  split.
  - intros H. remember (Star (Class p)) as r eqn:Hr.
    induction H as [| | | | | |a u v Hu _ Hv IHv]; try discriminate.
    + constructor.
    + injection Hr as ->. apply lang_class in Hu as (c & -> & Hc).
      constructor; [done | by apply IHv].
  - induction 1 as [|c s Hc _ IH]; [constructor|].
    apply (LStarCons (Class p) [c] s); [by constructor | done].
Qed.

Lemma lang_plus_class (p : N -> bool) (s : pystr) :
  lang (Plus (Class p)) s <-> s <> [] /\ Forall (fun c => p c = true) s.
Proof.
  unfold Plus. split.
  - intros (u & v & -> & Hu & Hv)%seq_inv.
    apply lang_class in Hu as (c & -> & Hc). apply lang_star_class in Hv.
    split; [done | by constructor].
  - intros [Hne Hs]. destruct Hs as [|c s Hc Hs]; [done|].
    apply (LSeq _ _ [c] s); [by constructor | by apply lang_star_class].
Qed.

Lemma lang_atleast2_class (p : N -> bool) (s : pystr) :
  lang (AtLeast2 (Class p)) s
  <-> (2 <= length s)%nat /\ Forall (fun c => p c = true) s.
Proof.
  unfold AtLeast2. split.
  - intros (u & v & -> & Hu & (u' & v' & -> & Hu' & Hv')%seq_inv)%seq_inv.
    apply lang_class in Hu as (c & -> & Hc).
    apply lang_class in Hu' as (c' & -> & Hc').
    apply lang_star_class in Hv'. simpl.
    split; [lia | by repeat constructor].
  - intros [Hlen Hs].
    destruct Hs as [|c s Hc Hs]; [simpl in Hlen; lia|].
    destruct Hs as [|c' s Hc' Hs]; [simpl in Hlen; lia|].
    apply (LSeq _ _ [c] (c' :: s)); [by constructor|].
    apply (LSeq _ _ [c'] s); [by constructor | by apply lang_star_class].
Qed.

Lemma lang_email_pattern (s : pystr) :
  lang email_pattern s <-> well_formed_email s.
Proof.
  unfold email_pattern, well_formed_email. split.
  - intros (loc & r1 & -> & Hloc & (at_ & r2 & -> & Hat
            & (dom & r3 & -> & Hdom & (dot & tld & -> & Hdot & Htld)%seq_inv)
              %seq_inv)%seq_inv)%seq_inv.
    apply lang_plus_class in Hloc as [? ?].
    apply lang_class in Hat as (c1 & -> & <-%N.eqb_eq).
    apply lang_plus_class in Hdom as [? ?].
    apply lang_class in Hdot as (c2 & -> & <-%N.eqb_eq).
    apply lang_atleast2_class in Htld as [? ?].
    exists loc, dom, tld. done.
  - intros (loc & dom & tld & -> & ? & ? & ? & ? & ? & ?).
    apply LSeq; [by apply lang_plus_class|].
    apply (LSeq _ _ [64%N]); [by constructor|].
    apply LSeq; [by apply lang_plus_class|].
    apply (LSeq _ _ [46%N]); [by constructor|].
    by apply lang_atleast2_class.
Qed.

Lemma validate_email_parts (e : pystr) :
  _validate_email e = true <-> well_formed_email (strip e).
Proof.
  rewrite validate_as_match. unfold re_match_anchored.
  rewrite matches_lang, <- lang_email_pattern. split.
  - intros (s & d & Hs & Hp & Hd)%seq_inv.
    inversion Hd as [| | |? ? ? Hd'| ? ? ? Hd'| |]; subst.
    + inversion Hd'; subst. by rewrite app_nil_r in Hs; rewrite Hs.
    + apply lang_class in Hd' as (c & -> & <-%N.eqb_eq).
      by apply strip_last in Hs.
  - intros Hp. rewrite <- (app_nil_r (strip e)).
    apply LSeq; [done|]. apply LAltL. constructor.
Qed.

(** X1: surrounding whitespace plays no part in the verdict. *)
Theorem validate_email_ignores_padding (l e r : pystr) :
  Forall (fun c => isspace c = true) l ->
  Forall (fun c => isspace c = true) r ->
  _validate_email (l ++ e ++ r) = _validate_email e.
Proof.
  intros Hl Hr. by rewrite !validate_as_match, strip_padding.
Qed.

Lemma validate_email_ignores_padding_witness :
  _validate_email (lit "  " ++ lit "ann@x.com" ++ [10%N])
  = _validate_email (lit "ann@x.com").
Proof.
  apply (validate_email_ignores_padding (lit "  ") (lit "ann@x.com") [10%N]);
    repeat constructor.
Defined.

(** X2: the accepted inputs are exactly those whose stripped form is
    [local@domain.tld]. *)
Theorem validate_email_shape (e : pystr) :
  _validate_email e = true <->
  exists loc dom tld,
    strip e = loc ++ [64%N] ++ dom ++ [46%N] ++ tld
    /\ loc <> [] /\ Forall (fun c => local_char c = true) loc
    /\ dom <> [] /\ Forall (fun c => domain_char c = true) dom
    /\ (2 <= length tld)%nat /\ Forall (fun c => is_alpha c = true) tld.
Proof. apply validate_email_parts. Qed.

(** X3: an accepted email has exactly one [@], and none of its characters,
    once stripped, is outside the letters, digits and [._%+-@]. *)
Theorem accepted_email_characters (e : pystr) :
  _validate_email e = true ->
  length (filter (fun c => c = 64%N) (strip e)) = 1%nat
  /\ Forall (fun c => local_char c = true \/ c = 64%N) (strip e).
Proof.
  intros (loc & dom & tld & -> & _ & Hloc & _ & Hdom & _ & Htld)
    %validate_email_parts.
  assert (Hnone : forall (p : N -> bool) s,
             (forall c, p c = true -> c <> 64%N) ->
             Forall (fun c => p c = true) s ->
             filter (fun c => c = 64%N) s = []).
  { intros p s Hp Hs. induction Hs as [|c s Hc _ IH]; [done|].
    rewrite filter_cons_False by (by apply Hp). exact IH. }
  assert (Hwide : forall (p : N -> bool) s,
             (forall c, p c = true -> local_char c = true) ->
             Forall (fun c => p c = true) s ->
             Forall (fun c => local_char c = true \/ c = 64%N) s).
  { intros p s Hp Hs. eapply Forall_impl; [exact Hs|]. intros c Hc.
    left. by apply Hp. }
  assert (Hd : forall c, domain_char c = true -> local_char c = true).
  { intros c. unfold domain_char, local_char.
    rewrite !orb_true_iff. tauto. }
  assert (Ha : forall c, is_alpha c = true -> local_char c = true).
  { intros c. unfold local_char. rewrite !orb_true_iff. tauto. }
  assert (Hl : forall c, local_char c = true -> c <> 64%N).
  { intros c Hc ->. discriminate. }
  split.
  - rewrite !filter_app.
    rewrite (Hnone local_char loc), (Hnone domain_char dom),
      (Hnone is_alpha tld); auto.
  - rewrite !Forall_app. repeat split; eauto; repeat constructor; auto.
Qed.

Lemma accepted_email_characters_witness :
  length (filter (fun c => c = 64%N) (strip (lit " ann@x.com "))) = 1%nat.
Proof.
  apply (proj1 (accepted_email_characters (lit " ann@x.com ") eq_refl)).
Defined.


(** ** More on documents *)

Lemma endswith_suffix (s suffix : pystr) :
  endswith s suffix = true <-> exists stem, s = stem ++ suffix.
Proof.
  unfold endswith, PyStr.eqb. rewrite andb_true_iff, bool_decide_eq_true.
  rewrite Nat.leb_le. split.
  - intros [Hd Hl]. exists (take (length s - length suffix) s).
    revert Hd. generalize (length s - length suffix)%nat. intros n <-.
    by rewrite take_drop.
  - intros [stem ->]. rewrite length_app. split; [|lia].
    replace (length stem + length suffix - length suffix)%nat
      with (length stem) by lia.
    by rewrite drop_app_length.
Qed.

(** X4: a name is supported exactly when it is some stem followed by an
    ending that lowercases to [.stl], [.obj] or [.3mf]; the stem may be
    empty and is not looked at. *)
Theorem supported_name_ending (name : pystr) :
  endswith_any (lower name) supported_formats = true <->
  exists stem ending,
    name = stem ++ ending /\ lower ending ∈ supported_formats.
Proof.
  unfold endswith_any. rewrite existsb_exists. split.
  - intros (ext & Hin & (stem' & Hs)%endswith_suffix).
    unfold lower in Hs.
    apply map_eq_app in Hs as (stem & ending & -> & <- & <-).
    exists stem, ending. split; [done|]. by apply list_elem_of_In.
  - intros (stem & ending & -> & Hin).
    exists (lower ending). split; [by apply list_elem_of_In|].
    apply endswith_suffix. exists (lower stem). unfold lower. apply map_app.
Qed.






(** ** Modes of the chat *)

Lemma with_user_data_same (w : World) : with_user_data w (user_data w) = w.
Proof. by destruct w. Qed.

(** X6: a text reaches an order handler only outside the email modes, for a
    user with an active session, and only at [CONTACT_INFO] (a contact
    handler) or at [DELIVERY] with delivery needed (the address handler);
    the handler gets the text as typed. *)
Theorem order_handlers_reached_only (w : World) (uid : Z) (text : pystr)
    (c : OrderHandlerCall) :
  EOrderHandlers c ∈ events (handle_text_message uid text) w ->
  ~ mode_waiting w "tracking_state"
  /\ ~ mode_waiting w "subscription_state"
  /\ exists s,
      active_session w uid = Some s
      /\ ((step s = CONTACT_INFO /\ exists f, c = contact_handler f text)
          \/ (step s = DELIVERY /\ delivery_needed s = true
              /\ c = handle_delivery_address text)).
Proof.
  intros Hin.
  assert (Hkeep : forall m : M unit,
             keeps_order_flow_out m w -> handle_text_message uid text w = m w ->
             False).
  { intros m [Hall _] Heq. apply (no_order_call _ Hall c).
    unfold events in *. by rewrite <- Heq. }
  unfold mode_waiting.
  destruct (decide (user_data w !! "tracking_state" = Some waiting_for_email))
    as [Ht|Ht].
  { exfalso. apply (Hkeep _ (tracking_email_keeps_out w text)).
    unfold handle_text_message, mode_waiting in *.
    unfold mbind, M_bind, get_user_data.
    rewrite bool_decide_eq_true_2 by done.
    by destruct (handle_tracking_email text w) as [[[]]]. }
  destruct (decide (user_data w !! "subscription_state"
                    = Some waiting_for_email)) as [Hs|Hs].
  { exfalso. apply (Hkeep _ (subscription_email_keeps_out w uid text)).
    unfold handle_text_message, mode_waiting in *.
    unfold mbind, M_bind, get_user_data.
    rewrite bool_decide_eq_false_2 by done.
    rewrite bool_decide_eq_true_2 by done.
    by destruct (handle_subscription_email uid text w) as [[[]]]. }
  split; [done|]. split; [done|].
  unfold events in Hin. rewrite (text_reaches_order_flow w uid text Ht Hs) in Hin.
  destruct (active_session w uid) as [s|]; simpl in Hin;
    [|apply list_elem_of_singleton in Hin; discriminate].
  exists s. split; [done|].
  case_bool_decide as Hc; simpl in Hin.
  - left. split; [done|]. unfold contact_route in Hin.
    destruct (first_unset_field s) as [f|]; apply list_elem_of_singleton in Hin;
      [injection Hin as ->; eauto | discriminate].
  - destruct (bool_decide (step s = DELIVERY) && delivery_needed s) eqn:Hd;
      apply list_elem_of_singleton in Hin; [|discriminate].
    injection Hin as ->. apply andb_true_iff in Hd as [Hd%bool_decide_eq_true ?].
    right. done.
Qed.

Lemma order_handlers_reached_only_witness :
  ~ mode_waiting
      (sample_world None
         {[ 7 := sample_session CONTACT_INFO None None None ]} ∅ ∅)
      "tracking_state".
Proof.
  refine (proj1 (order_handlers_reached_only
                   (sample_world None
                      {[ 7 := sample_session CONTACT_INFO None None None ]}
                      ∅ ∅)
                   7 (lit "Ann") (handle_contact_name (lit "Ann")) _)).
  vm_compute. left.
Defined.

(** X7: an accepted email always ends the tracking dialogue, whatever the
    upstream answers: the handler does not raise, removes
    [tracking_state] and nothing else from the chat's data, and leaves the
    bot as it was; when the lookup fails the user gets the error report
    and no list. *)
Theorem tracking_email_ends_mode (w : World) (e : pystr) :
  _validate_email e = true ->
  result (handle_tracking_email e) w = inr tt
  /\ world_after (handle_tracking_email e) w
     = with_user_data w (delete "tracking_state" (user_data w))
  /\ ((forall api, api_client (bot w) = Some api ->
                   get_orders_by_email api e = None) ->
      last (events (handle_tracking_email e) w)
      = Some (EApiError "searching orders")
      /\ forall m kb, EReply m kb ∈ events (handle_tracking_email e) w ->
                      m = MsgSearchingOrders).
Proof.
  intros Hv. unfold result, world_after, events, handle_tracking_email,
    fetch_orders_by_email, show_orders_list, with_user_data.
  rewrite Hv. simpl. unfold_monad. simpl.
  destruct (api_client (bot w)) as [api|] eqn:Hapi; simpl.
  - destruct (get_orders_by_email api e) as [[|o l]|] eqn:Ho; simpl;
      (split; [done|]); (split; [done|]); intros Hf;
      try (specialize (Hf api eq_refl); congruence).
    split; [done|]. intros m kb Hin.
    repeat (apply elem_of_cons in Hin as [Hin|Hin]; [by simplify_eq|]).
    by apply elem_of_nil in Hin.
  - split; [done|]. split; [done|]. intros _. split; [done|].
    intros m kb Hin.
    repeat (apply elem_of_cons in Hin as [Hin|Hin]; [by simplify_eq|]).
    by apply elem_of_nil in Hin.
Qed.

Lemma tracking_email_ends_mode_witness :
  user_data
    (world_after (handle_tracking_email (lit "ann@x.com"))
       (sample_world None ∅ ∅
          {[ "tracking_state"%string := waiting_for_email ]}))
  !! "tracking_state"%string = None.
Proof.
  rewrite (proj1 (proj2 (tracking_email_ends_mode
                           (sample_world None ∅ ∅
                              {[ "tracking_state"%string
                                 := waiting_for_email ]})
                           (lit "ann@x.com") eq_refl))).
  apply lookup_delete_eq.
Defined.



(** X9: the cancel command does not end an email dialogue: the chat's data is
    untouched, and with the tracking mode pending the next text is still
    taken by the tracking handler. *)
Theorem cancel_keeps_email_modes (w : World) (uid : Z) :
  user_data (world_after (cancel_command uid) w) = user_data w
  /\ (mode_waiting w "tracking_state" ->
      forall text,
        handle_text_message uid text (world_after (cancel_command uid) w)
        = handle_tracking_email text (world_after (cancel_command uid) w)).
Proof.
  assert (Hud : user_data (world_after (cancel_command uid) w) = user_data w).
  { unfold world_after, cancel_command, SessionManager.clear_session.
    unfold_monad. reflexivity. }
  split; [exact Hud|]. unfold mode_waiting. intros Hm text.
  unfold handle_text_message. unfold mbind, M_bind, get_user_data.
  rewrite Hud. rewrite bool_decide_eq_true_2 by done.
  by destruct (handle_tracking_email text _) as [[[]]].
Qed.

(** X10: opening a dialogue and cancelling it with its button: the mode is gone
    and the rest of the chat's data and the bot are as before; a chat that
    had no such mode is back in the world it started from. *)
Theorem dialogue_cancel_round_trip (w : World) (u : Update) (uid : Z) :
  world_after (handle_callback_query uid cb_cancel_tracking)
    (world_after (start_order_tracking u) w)
  = with_user_data w (delete "tracking_state" (user_data w))
  /\ (user_data w !! "tracking_state" = None ->
      world_after (handle_callback_query uid cb_cancel_tracking)
        (world_after (start_order_tracking u) w) = w)
  /\ (user_data w !! "subscription_state" = None ->
      world_after (handle_callback_query uid cb_cancel_subscription)
        (world_after (subscribe_command MessageUpdate uid) w) = w).
Proof.
  assert (H1 : world_after (handle_callback_query uid cb_cancel_tracking)
                 (world_after (start_order_tracking u) w)
               = with_user_data w (delete "tracking_state" (user_data w))).
  { unfold world_after, handle_callback_query, start_order_tracking,
      show_main_menu, with_user_data.
    destruct u; unfold_monad; simpl; by rewrite delete_insert_eq. }
  split; [exact H1|]. split.
  - intros Hnone. rewrite H1, delete_id by done. apply with_user_data_same.
  - intros Hnone.
    unfold world_after, handle_callback_query, subscribe_command,
      show_main_menu, SubscriptionManager.get_subscription.
    unfold_monad. simpl.
    destruct (notification_service (bot w)) as [[subs]|]; simpl.
    + destruct (subs !! uid) as [sub|]; simpl;
        [destruct (is_active sub); simpl|];
        rewrite ?delete_insert_eq, delete_id by done;
        apply with_user_data_same.
    + rewrite delete_id by done. apply with_user_data_same.
Qed.

Lemma dialogue_cancel_round_trip_witness :
  world_after (handle_callback_query 7 cb_cancel_tracking)
    (world_after (start_order_tracking MessageUpdate)
       (sample_world None ∅ ∅ ∅))
  = sample_world None ∅ ∅ ∅.
Proof.
  apply (proj1 (proj2 (dialogue_cancel_round_trip (sample_world None ∅ ∅ ∅)
                         MessageUpdate 7))).
  reflexivity.
Defined.


(** ** Callback data *)

Example decimal_int_examples :
  decimal_int (lit "-12") = Some (-12) /\ decimal_int (lit "007") = Some 7
  /\ decimal_int (lit "-") = None /\ decimal_int (lit "N/A") = None
  /\ decimal_int (py_str_int (-420)) = Some (-420)
  /\ py_str_int 0 = lit "0".
Proof. repeat split; reflexivity. Qed.

Lemma split_on_app (sep : N) (a b : pystr) :
  split_on sep (a ++ sep :: b) = split_on sep a ++ split_on sep b.
Proof.
  induction a as [|c a IH]; simpl.
  - rewrite N.eqb_refl. reflexivity.
  - destruct (c =? sep)%N; [by rewrite IH|].
    rewrite IH. destruct (split_on sep a) as [|piece pieces] eqn:Ha; [|done].
    destruct a; simpl in Ha; [discriminate|].
    destruct (n =? sep)%N; [discriminate|].
    destruct (split_on sep a); discriminate.
Qed.

Lemma split_on_whole (sep : N) (s : pystr) :
  sep ∉ s -> split_on sep s = [s].
Proof.
  induction s as [|c s IH]; simpl; intros Hs; [done|].
  apply not_elem_of_cons in Hs as [Hc Hs].
  replace (c =? sep)%N with false by (symmetry; apply N.eqb_neq; congruence).
  by rewrite IH.
Qed.

Lemma uint_chars_digits (d : Decimal.uint) :
  Forall (fun c => is_digit c = true) (uint_chars d).
Proof. induction d; simpl; constructor; done. Qed.

Lemma py_str_int_no_underscore (z : Z) : underscore ∉ py_str_int z.
Proof.
  unfold py_str_int.
  assert (H : forall d, underscore ∉ uint_chars d).
  { intros d Hin. pose proof (uint_chars_digits d) as Hd.
    rewrite Forall_forall in Hd. apply Hd in Hin. discriminate. }
  destruct (Z.to_int z) as [d|d]; [apply H|].
  apply not_elem_of_cons. split; [discriminate | apply H].
Qed.

Lemma eqb_app_clash (a x c : pystr) :
  clash a c = true -> PyStr.eqb (a ++ x) c = false.
Proof.
  unfold clash, PyStr.eqb. intros H. apply negb_true_iff in H.
  apply bool_decide_eq_false in H. apply bool_decide_eq_false_2.
  intros Heq. apply H. subst c.
  rewrite take_app_length. apply take_ge. rewrite length_app. lia.
Qed.

Lemma startswith_app_clash (a x p : pystr) :
  clash a p = true -> startswith (a ++ x) p = false.
Proof.
  unfold clash, startswith, PyStr.eqb. intros H. apply negb_true_iff in H.
  apply bool_decide_eq_false in H. apply bool_decide_eq_false_2.
  intros Heq. apply H.
  destruct (Nat.le_gt_cases (length p) (length a)) as [Hle|Hgt].
  - rewrite take_app_le in Heq by lia. rewrite Heq.
    symmetry. apply take_ge. rewrite <- Heq, length_take. lia.
  - rewrite (take_ge a) by lia. rewrite <- Heq.
    rewrite take_take, Nat.min_l by lia. by rewrite take_app_length.
Qed.

Lemma startswith_app (a x : pystr) : startswith (a ++ x) a = true.
Proof.
  unfold startswith, PyStr.eqb. apply bool_decide_eq_true_2.
  apply take_app_length.
Qed.

Lemma int_field_last (py_int : pystr -> option Z) (q x : pystr) (k : nat) :
  length (split_on underscore q) = k ->
  underscore ∉ x ->
  int_field py_int (q ++ underscore :: x) k = py_int x.
Proof.
  intros Hk Hx. unfold int_field.
  rewrite split_on_app, (split_on_whole _ x Hx).
  rewrite lookup_app_r by lia. rewrite Hk, Nat.sub_diag. reflexivity.
Qed.

Ltac skip_tests a x :=
  rewrite ?(eqb_app_clash a x) by reflexivity;
  try (rewrite (startswith_app_clash a x (lit "services_page_")) by reflexivity);
  try (rewrite (startswith_app_clash a x (lit "select_service_")) by reflexivity);
  try (rewrite (startswith_app_clash a x (lit "order_service_")) by reflexivity);
  try (rewrite (startswith_app_clash a x (lit "order_select_service_"))
        by reflexivity);
  try (rewrite (startswith_app_clash a x (lit "order_spec_material_"))
        by reflexivity);
  try (rewrite (startswith_app_clash a x (lit "order_spec_quality_"))
        by reflexivity);
  try (rewrite (startswith_app_clash a x (lit "order_spec_infill_"))
        by reflexivity);
  try (rewrite (startswith_app_clash a x (lit "order_details_"))
        by reflexivity);
  rewrite (startswith_app a x).

(** The data [prefix_<x>] of the four numbered branches reaches the branch
    of its prefix, which converts [x]. *)
Lemma parse_numbered (py_int : pystr -> option Z) (x : pystr) :
  underscore ∉ x ->
  parse_callback py_int (lit "services_page_" ++ x)
  = cb_services_page <$> py_int x
  /\ parse_callback py_int (lit "select_service_" ++ x)
     = cb_select_service <$> py_int x
  /\ parse_callback py_int (lit "order_service_" ++ x)
     = cb_order_service <$> py_int x
  /\ parse_callback py_int (lit "order_details_" ++ x)
     = cb_order_details <$> py_int x.
Proof.
  intros Hx. unfold parse_callback. repeat split.
  - skip_tests (lit "services_page_") x.
    change (lit "services_page_" ++ x)
      with (lit "services_page" ++ underscore :: x).
    by rewrite int_field_last.
  - skip_tests (lit "select_service_") x.
    change (lit "select_service_" ++ x)
      with (lit "select_service" ++ underscore :: x).
    by rewrite int_field_last.
  - skip_tests (lit "order_service_") x.
    change (lit "order_service_" ++ x)
      with (lit "order_service" ++ underscore :: x).
    by rewrite int_field_last.
  - skip_tests (lit "order_details_") x.
    change (lit "order_details_" ++ x)
      with (lit "order_details" ++ underscore :: x).
    by rewrite int_field_last.
Qed.


(** X11: every button the bot builds is taken by the branch it was made for,
    provided [int] reads back the number it carries: its data never falls
    through to another branch nor to the unknown-command reply. *)
Theorem buttons_reach_their_branch (py_int : pystr -> option Z)
    (b : Button) (cb : Callback) :
  button_callback b = Some cb ->
  (forall z, button_number b = Some z -> reads_back py_int z) ->
  parse_callback py_int (callback_data b) = Some cb
  /\ forall uid,
       handle_callback_data py_int uid (callback_data b)
       = handle_callback_query uid cb.
Proof.
  intros Hcb Hread.
  assert (Hparse : parse_callback py_int (callback_data b) = Some cb).
  { assert (Hnum : forall z, button_number b = Some z ->
                             py_int (py_str_int z) = Some z)
      by exact Hread.
    destruct b as [| | | | | |lbl id|t|t|id| | |[id|]| |];
      simpl in Hcb; try discriminate; injection Hcb as <-;
      cbn [callback_data]; try reflexivity.
    - destruct (parse_numbered py_int (py_str_int id)
                  (py_str_int_no_underscore id)) as (_ & -> & _).
      by rewrite (Hnum id eq_refl).
    - destruct (parse_numbered py_int (py_str_int t)
                  (py_str_int_no_underscore t)) as (-> & _).
      by rewrite (Hnum t eq_refl).
    - destruct (parse_numbered py_int (py_str_int t)
                  (py_str_int_no_underscore t)) as (-> & _).
      by rewrite (Hnum t eq_refl).
    - destruct (parse_numbered py_int (py_str_int id)
                  (py_str_int_no_underscore id)) as (_ & _ & -> & _).
      by rewrite (Hnum id eq_refl).
    - destruct (parse_numbered py_int (py_str_int id)
                  (py_str_int_no_underscore id)) as (_ & _ & _ & ->).
      by rewrite (Hnum id eq_refl). }
  split; [exact Hparse|]. intros uid.
  unfold handle_callback_data. by rewrite Hparse.
Qed.

Lemma buttons_reach_their_branch_witness :
  parse_callback decimal_int (callback_data (BtnNextPage 12))
  = Some (cb_services_page 12).
Proof.
  refine (proj1 (buttons_reach_their_branch decimal_int (BtnNextPage 12)
                   (cb_services_page 12) eq_refl _)).
  intros z [= <-]. reflexivity.
Defined.

(** X12: data of a numbered branch whose number [int] cannot read (an empty or
    malformed field, or the [N/A] of an order without an id) ends in the
    error report of the callback handler; nothing else is sent and nothing
    changes. *)
Theorem unreadable_number_reported (py_int : pystr -> option Z)
    (field : pystr) (uid : Z) (w : World) :
  underscore ∉ field ->
  py_int field = None ->
  forall prefix,
    prefix ∈ [lit "services_page_"; lit "select_service_";
              lit "order_service_"; lit "order_details_"] ->
    handle_callback_data py_int uid (prefix ++ field) w
    = (inr tt, w, callback_error_report).
Proof.
  intros Hfield Hnone prefix Hin.
  destruct (parse_numbered py_int field Hfield) as (H1 & H2 & H3 & H4).
  unfold handle_callback_data.
  repeat (apply elem_of_cons in Hin as [->|Hin];
          [rewrite ?H1, ?H2, ?H3, ?H4, Hnone; reflexivity|]).
  by apply elem_of_nil in Hin.
Qed.

Lemma unreadable_number_reported_witness :
  handle_callback_data decimal_int 7 (callback_data (BtnOrderDetails None))
    (sample_world None ∅ ∅ ∅)
  = (inr tt, sample_world None ∅ ∅ ∅, callback_error_report).
Proof.
  refine (unreadable_number_reported decimal_int (lit "N/A") 7
            (sample_world None ∅ ∅ ∅) _ _ (lit "order_details_") _).
  - vm_compute. intros H. repeat (apply elem_of_cons in H as [H|H];
      [discriminate|]). by apply elem_of_nil in H.
  - reflexivity.
  - set_solver.
Defined.

(** X13: the Help, Subscribe and Unsubscribe buttons call handlers that answer
    through [update.message], which a callback update does not have: the
    user gets the error report of the callback handler and never the help
    text, the prompt or the confirmation, while the chat's data and the
    subscriptions change exactly as the commands change them. *)
Theorem command_buttons_report_errors (w : World) (uid : Z) :
  handle_callback_query uid cb_help w = (inr tt, w, callback_error_report)
  /\ handle_callback_query uid cb_subscribe_notifications w
     = (inr tt, world_after (subscribe_command MessageUpdate uid) w,
        callback_error_report)
  /\ handle_callback_query uid cb_unsubscribe_notifications w
     = (inr tt, world_after (unsubscribe_command MessageUpdate uid) w,
        callback_error_report).
Proof.
  unfold handle_callback_query, help_command, subscribe_command,
    unsubscribe_command, world_after, callback_error_report,
    SubscriptionManager.get_subscription,
    SubscriptionManager.unsubscribe_user.
  unfold_monad. simpl. split; [done|].
  destruct (notification_service (bot w)) as [[subs]|]; simpl; [|done].
  destruct (subs !! uid) as [sub|]; simpl; [|done].
  destruct (is_active sub); simpl; done.
Qed.


(** ** More on the catalog *)

Lemma page_take_drop (services : list Service) (p : Z) :
  0 <= p ->
  page_services_of services p
  = take 5 (drop (5 * Z.to_nat p) services).
Proof.
  intros Hp. unfold page_services_of, services_per_page.
  rewrite py_slice_page by done. do 2 f_equal. lia.
Qed.

Lemma chunks_take {A : Type} (l : list A) (k : nat) :
  concat ((fun i => take 5 (drop (5 * i) l)) <$> seq 0 k) = take (5 * k) l.
Proof.
  induction k as [|k IH]; [by rewrite Nat.mul_0_r, take_0|].
  rewrite seq_S, fmap_app, concat_app, IH, Nat.add_0_l.
  cbn [fmap list_fmap concat]. rewrite app_nil_r, take_take_drop.
  f_equal. lia.
Qed.

Lemma total_pages_bounds (n : Z) :
  0 <= n ->
  0 <= total_pages_of n /\ n <= 5 * total_pages_of n
  /\ 5 * (total_pages_of n - 1) < n.
Proof.
  intros Hn. unfold total_pages_of, services_per_page.
  pose proof (Z.div_mod (n + 5 - 1) 5 ltac:(lia)).
  pose proof (Z.mod_pos_bound (n + 5 - 1) 5 ltac:(lia)).
  lia.
Qed.


(** X15: the pages [0 .. total_pages-1], one after the other, are the whole
    listing: every service is on exactly one page, in the order of the
    listing. *)
Theorem pages_cover_listing (services : list Service) :
  concat (catalog_pages services) = services.
Proof.
  unfold catalog_pages, seqZ.
  set (n := Z.of_nat (length services)).
  destruct (total_pages_bounds n ltac:(lia)) as (H0 & Hup & _).
  rewrite <- list_fmap_compose.
  rewrite (list_fmap_ext _ (fun i => take 5 (drop (5 * i) services))).
  - rewrite chunks_take. apply take_ge. lia.
  - intros i x _. simpl. rewrite page_take_drop by lia. do 3 f_equal. lia.
Qed.

Example twelve_services_pages :
  map (map svc_id) (catalog_pages twelve_services)
  = [[Some 1; Some 2; Some 3; Some 4; Some 5];
     [Some 6; Some 7; Some 8; Some 9; Some 10];
     [Some 11; Some 12]].
Proof. reflexivity. Qed.

Lemma catalog_entries_lookup (i : Z) (l : list Service) (k : nat) :
  catalog_entries i l !! k
  = (fun s => {| entry_number := i + Z.of_nat k;
                 entry_name := default untitled (svc_name s);
                 entry_description := description_preview (svc_description s) |})
      <$> l !! k.
Proof.
  revert i k. induction l as [|s l IH]; intros i [|k]; simpl; try done.
  - do 2 f_equal. lia.
  - rewrite IH. destruct (l !! k); simpl; [|done]. do 2 f_equal. lia.
Qed.

(** X16: on a page [p >= 0], the line at position [k] shows the service at
    position [5*p + k] of the whole listing, and the number beside it is
    that position counted from one. *)
Theorem catalog_numbering (services : list Service) (p : Z) (k : nat)
    (entry : CatalogEntry) :
  0 <= p ->
  message_entries (catalog_message services p) !! k = Some entry ->
  (k < 5)%nat
  /\ entry_number entry = 5 * p + Z.of_nat k + 1
  /\ exists s,
      services !! (Z.to_nat (entry_number entry) - 1)%nat = Some s
      /\ entry_name entry = default untitled (svc_name s).
Proof.
  intros Hp. unfold catalog_message, message_entries, services_per_page.
  rewrite catalog_entries_lookup, page_take_drop by done.
  intros Hk. apply fmap_Some in Hk as (s & Hs & ->). simpl.
  apply lookup_take_Some in Hs as [Hs Hk]. rewrite lookup_drop in Hs.
  split; [done|]. split; [lia|]. exists s. split; [|done].
  rewrite <- Hs. f_equal. lia.
Qed.

Lemma catalog_numbering_witness :
  entry_number {| entry_number := 7; entry_name := lit "Print";
                  entry_description := [] |}
  = 5 * 1 + Z.of_nat 1 + 1.
Proof.
  refine (proj1 (proj2 (catalog_numbering seven_services 1 1
                          {| entry_number := 7; entry_name := lit "Print";
                             entry_description := [] |} _ _))).
  - lia.
  - reflexivity.
Defined.

Lemma page_length (services : list Service) (p : Z) :
  0 <= p ->
  length (page_services_of services p)
  = Nat.min 5 (length services - 5 * Z.to_nat p).
Proof.
  intros Hp. by rewrite page_take_drop, length_take, length_drop.
Qed.

Lemma catalog_keyboard_buttons (services : list Service) (p : Z) :
  buttons_of (catalog_keyboard services p)
  = concat (service_buttons (page_services_of services p))
    ++ pagination_row p (total_pages_of (Z.of_nat (length services)))
    ++ [BtnMainMenu].
Proof.
  unfold buttons_of, catalog_keyboard. rewrite !concat_app. f_equal.
  destruct (pagination_row _ _); simpl; by rewrite ?app_nil_r.
Qed.

Lemma pagination_buttons (services : list Service) (p t : Z) :
  (BtnPrevPage t ∈ buttons_of (catalog_keyboard services p)
   <-> 0 < p /\ t = p - 1)
  /\ (BtnNextPage t ∈ buttons_of (catalog_keyboard services p)
      <-> p < total_pages_of (Z.of_nat (length services)) - 1 /\ t = p + 1).
Proof.
  rewrite catalog_keyboard_buttons. unfold pagination_row.
  set (tp := total_pages_of _). set (sb := service_buttons _).
  assert (Hsb : forall b, is_select b = false -> b ∈ concat sb -> False).
  { intros b Hb Hin%service_buttons_select. congruence. }
  rewrite !elem_of_app, !list_elem_of_singleton.
  destruct (Z.ltb_spec 0 p), (Z.ltb_spec p (tp - 1));
    rewrite ?list_elem_of_singleton, ?elem_of_nil;
    split; split; intros H'; destruct_or?; destruct_and?; simplify_eq;
    try lia; try (by exfalso; eapply Hsb; [|eassumption]); auto.
Qed.

(** X17: from a page of the listing, the previous-page and next-page buttons
    lead to the neighbouring page, which is again a page of the listing
    and not empty. *)
Theorem catalog_navigation_in_range (services : list Service) (p t : Z) :
  0 <= p < total_pages_of (Z.of_nat (length services)) ->
  BtnPrevPage t ∈ buttons_of (catalog_keyboard services p)
  \/ BtnNextPage t ∈ buttons_of (catalog_keyboard services p) ->
  (t = p - 1 \/ t = p + 1)
  /\ 0 <= t < total_pages_of (Z.of_nat (length services))
  /\ page_services_of services t <> [].
Proof.
  intros Hp Hb.
  destruct (pagination_buttons services p t) as [Hprev Hnext].
  destruct (total_pages_bounds (Z.of_nat (length services)) ltac:(lia))
    as (_ & _ & Hlow).
  assert (Ht : (t = p - 1 \/ t = p + 1)
               /\ 0 <= t < total_pages_of (Z.of_nat (length services))).
  { destruct Hb as [[? ->]%Hprev | [? ->]%Hnext]; clear Hprev Hnext;
      (split; [auto|lia]). }
  split; [tauto|]. split; [tauto|].
  intros Hnil%(f_equal length). rewrite page_length in Hnil by lia.
  cbn [length] in Hnil. lia.
Qed.

Lemma catalog_navigation_in_range_witness :
  page_services_of seven_services 1 <> [].
Proof.
  refine (proj2 (proj2 (catalog_navigation_in_range seven_services 0 1 _ _))).
  - vm_compute. split; [discriminate | reflexivity].
  - right. vm_compute. right. right. right. right. right. left.
Defined.

(** X18: a page index at or beyond the number of pages (a stale or forged
    page button) shows no service: the message lists nothing and the
    keyboard has only the previous-page and main-menu rows. *)
Theorem stale_page_is_empty (services : list Service) (p : Z) :
  services <> [] ->
  total_pages_of (Z.of_nat (length services)) <= p ->
  message_entries (catalog_message services p) = []
  /\ catalog_keyboard services p = [[BtnPrevPage (p - 1)]; [BtnMainMenu]].
Proof.
  intros Hne Hp.
  destruct (total_pages_bounds (Z.of_nat (length services)) ltac:(lia))
    as (H0 & Hup & Hlow).
  assert (Hlen : (0 < length services)%nat) by (destruct services; simpl; [done|lia]).
  assert (Hpage : page_services_of services p = []).
  { apply nil_length_inv. rewrite page_length by lia. lia. }
  unfold catalog_message, catalog_keyboard, message_entries, pagination_row.
  rewrite Hpage. simpl.
  replace (0 <? p) with true by (symmetry; apply Z.ltb_lt; lia).
  replace (p <? _ - 1) with false by (symmetry; apply Z.ltb_ge; lia).
  done.
Qed.

Lemma stale_page_is_empty_witness :
  catalog_keyboard seven_services 9 = [[BtnPrevPage (9 - 1)]; [BtnMainMenu]].
Proof.
  refine (proj2 (stale_page_is_empty seven_services 9 _ _)).
  - discriminate.
  - vm_compute. discriminate.
Defined.

Lemma button_text_length (name : pystr) :
  (length (button_text name) <= 30)%nat.
Proof.
  unfold button_text. destruct (Z.leb_spec (Z.of_nat (length name)) 30).
  - lia.
  - rewrite length_app, length_take. change (length ellipsis) with 3%nat. lia.
Qed.

Lemma description_preview_length (d : option pystr) :
  (length (description_preview d) <= 80)%nat.
Proof.
  unfold description_preview. destruct d as [[|c d]|]; [simpl; lia| |simpl; lia].
  cbn [truthy andb].
  destruct (Z.ltb_spec 80 (Z.of_nat (length (c :: d)))).
  - rewrite length_app, length_take. change (length ellipsis) with 3%nat.
    lia.
  - lia.
Qed.

Lemma service_buttons_labels (l : list Service) (lbl : pystr) (id : Z) :
  BtnSelectService lbl id ∈ concat (service_buttons l) ->
  exists s, s ∈ l /\ selectable_id s = Some id
            /\ lbl = shopping_bags
                    ++ button_text (default service_word (svc_name s)).
Proof.
  unfold selectable_id.
  induction l as [|s l IH]; simpl; intros Hin; [by apply elem_of_nil in Hin|].
  assert (Hrest : BtnSelectService lbl id ∈ concat (service_buttons l) ->
                  exists s', s' ∈ s :: l
                    /\ match svc_id s' with
                       | Some id' =>
                           if truthy_int (Some id') then Some id' else None
                       | None => None
                       end = Some id
                    /\ lbl = shopping_bags
                            ++ button_text
                                 (default service_word (svc_name s'))).
  { intros (s' & ? & ?)%IH. exists s'. split; [by right | done]. }
  destruct (svc_id s) as [id'|] eqn:Hid; [|by apply Hrest].
  destruct (truthy_int (Some id')) eqn:Ht; [|by apply Hrest].
  simpl in Hin. apply elem_of_cons in Hin as [[= -> ->]|Hin]; [|by apply Hrest].
  exists s. split; [left|]. by rewrite Hid, Ht.
Qed.

(** X19: no line of the catalog shows more than 80 characters of description
    and every service button's label is the shopping bags sign and a space
    (three code points) followed by at most 30 characters of the name, 33
    code points at most, however long the names and descriptions of the
    listing are. *)
Theorem catalog_text_bounds (services : list Service) (p : Z) :
  (forall entry, entry ∈ message_entries (catalog_message services p) ->
                 (length (entry_description entry) <= 80)%nat)
  /\ (forall lbl id,
        BtnSelectService lbl id ∈ buttons_of (catalog_keyboard services p) ->
        (exists text, lbl = shopping_bags ++ text /\ (length text <= 30)%nat)
        /\ (length lbl <= 33)%nat).
Proof.
  split.
  - intros entry [k Hk]%list_elem_of_lookup.
    unfold catalog_message, message_entries in Hk.
    rewrite catalog_entries_lookup in Hk.
    apply fmap_Some in Hk as (s & _ & ->). apply description_preview_length.
  - intros lbl id. rewrite catalog_keyboard_buttons, !elem_of_app.
    intros [Hin|[Hin|Hin]].
    + apply service_buttons_labels in Hin as (s & _ & _ & ->).
      pose proof (button_text_length (default service_word (svc_name s))).
      split; [by eexists|].
      rewrite length_app. change (length shopping_bags) with 3%nat. lia.
    + unfold pagination_row in Hin.
      destruct (0 <? p), (p <? _); simpl in Hin;
        repeat (apply elem_of_cons in Hin as [Hin|Hin]; [discriminate|]);
        by apply elem_of_nil in Hin.
    + apply list_elem_of_singleton in Hin. discriminate.
Qed.

Lemma omap_service_buttons (l : list Service) :
  omap button_service_id (concat (service_buttons l)) = omap selectable_id l.
Proof.
  induction l as [|s l IH]; [done|].
  cbn [service_buttons omap list_omap]. unfold selectable_id at 1.
  destruct (svc_id s) as [id|]; [|exact IH].
  destruct (truthy_int (Some id)); [|exact IH].
  cbn [concat app omap list_omap button_service_id]. by rewrite <- IH.
Qed.

(** X20: the service buttons of a page are, in order, the services of that page
    whose id is present and not zero; a service without such an id is
    listed but cannot be selected, and no other button selects a
    service. *)
Theorem service_buttons_selectable (services : list Service) (p : Z) :
  omap button_service_id (buttons_of (catalog_keyboard services p))
  = omap selectable_id (page_services_of services p).
Proof.
  rewrite catalog_keyboard_buttons, !omap_app, omap_service_buttons.
  unfold pagination_row.
  destruct (0 <? p), (p <? _); simpl; by rewrite app_nil_r.
Qed.




(** X22: when the listing cannot be fetched (no API client, or the call
    raises), the catalog and the service selection each end with one error
    report that names their operation: nothing is displayed, nothing
    changes and no exception escapes. *)
Theorem listing_failure_reported (w : World) (u : Update) (p id : Z) :
  (forall api, api_client (bot w) = Some api -> get_services api true = None) ->
  exists calls,
    calls = match api_client (bot w) with
            | Some _ => [EApi (GetServices true)]
            | None => []
            end
    /\ show_services_catalog u p w
       = (inr tt, w, calls ++ [EApiError "fetching services"])
    /\ handle_service_selection u id w
       = (inr tt, w, calls ++ [EApiError "fetching service details"]).
Proof.
  intros Hfail. eexists. split; [reflexivity|].
  unfold show_services_catalog, handle_service_selection, fetch_services.
  unfold_monad. simpl.
  destruct (api_client (bot w)) as [api|]; simpl; [|done].
  by rewrite (Hfail api eq_refl).
Qed.

Lemma listing_failure_reported_witness :
  exists calls,
    calls = [] /\
    show_services_catalog MessageUpdate 0 (sample_world None ∅ ∅ ∅)
    = (inr tt, sample_world None ∅ ∅ ∅,
       calls ++ [EApiError "fetching services"]).
Proof.
  destruct (listing_failure_reported (sample_world None ∅ ∅ ∅) MessageUpdate
              0 1 ltac:(discriminate)) as (calls & Hc & Hshow & _).
  exists calls. split; [exact Hc | exact Hshow].
Defined.

(** ** The notifications menu *)

Lemma offered_reply (b : Button) (m : Message) (kb : list (list Button)) :
  offered b [EReply m (Some kb)] <-> b ∈ buttons_of kb.
Proof.
  unfold offered. split.
  - intros (m' & kb' & [Hin|Hin] & Hb);
      apply list_elem_of_singleton in Hin; by simplify_eq.
  - intros Hb. exists m, kb. split; [left|done].
    by apply list_elem_of_singleton.
Qed.

Lemma offered_edit (b : Button) (m : Message) (kb : list (list Button)) :
  offered b [EEdit m (Some kb)] <-> b ∈ buttons_of kb.
Proof.
  unfold offered. split.
  - intros (m' & kb' & [Hin|Hin] & Hb);
      apply list_elem_of_singleton in Hin; by simplify_eq.
  - intros Hb. exists m, kb. split; [right|done].
    by apply list_elem_of_singleton.
Qed.

Ltac menu_cases :=
  repeat match goal with
    | |- _ /\ _ => split
    | |- _ <-> _ => split
    | |- _ -> _ => intros ?
    | H : _ \/ _ |- _ => destruct H
    | H : _ /\ _ |- _ => destruct H
    | H : False |- _ => destruct H
    end;
  try discriminate; try reflexivity; auto.

(** X14: the notifications menu offers the action that will do something: the
    Subscribe button exactly when the service is there and the user has no
    active subscription, which is when the subscribe command opens its
    dialogue (and otherwise changes nothing); the Unsubscribe button
    exactly when the subscription is active, and without one the
    unsubscribe command changes nothing. *)
Theorem notifications_menu_matches_commands (w : World) (u : Update)
    (uid : Z) :
  (offered BtnSubscribeNotifications (events (show_notifications_menu u uid) w)
   <-> notifications_available w = true /\ actively_subscribed w uid = false)
  /\ (offered BtnUnsubscribeNotifications
        (events (show_notifications_menu u uid) w)
      <-> actively_subscribed w uid = true)
  /\ world_after (subscribe_command MessageUpdate uid) w
     = (if notifications_available w && negb (actively_subscribed w uid)
        then with_user_data w
               (<["subscription_state" := waiting_for_email]> (user_data w))
        else w)
  /\ (actively_subscribed w uid = false ->
      world_after (unsubscribe_command MessageUpdate uid) w = w).
Proof.
  unfold notifications_available, actively_subscribed, subscriptions_of,
    show_notifications_menu, subscribe_command, unsubscribe_command,
    SubscriptionManager.get_subscription, with_user_data.
  unfold_monad. simpl.
  destruct (notification_service (bot w)) as [[subs]|]; simpl.
  - destruct (subs !! uid) as [sub|]; simpl;
      [destruct (is_active sub); simpl|];
      destruct u; simpl; rewrite ?offered_reply, ?offered_edit;
      unfold buttons_of; simpl;
      rewrite ?elem_of_cons, ?elem_of_nil; menu_cases.
  - rewrite lookup_empty.
    destruct u; simpl; rewrite ?offered_reply, ?offered_edit;
      unfold buttons_of; simpl;
      rewrite ?elem_of_cons, ?elem_of_nil; menu_cases.
Qed.


(** ** More on the orders list *)

Lemma ltb_irrefl (a : pystr) : PyStr.ltb a a = false.
Proof.
  unfold PyStr.ltb. induction a as [|x a IH]; simpl; [done|].
  by rewrite N.compare_refl.
Qed.

Lemma insert_desc_filter {A : Type} (key : A -> pystr) (k : pystr)
    (x : A) (l : list A) :
  filter (fun y => key y = k) (insert_desc key x l)
  = filter (fun y => key y = k) (x :: l).
Proof.
  induction l as [|y l IH]; simpl; [done|].
  destruct (PyStr.ltb (key x) (key y)) eqn:Hlt; [|done].
  destruct (decide (key x = k)) as [Hx|Hx].
  - assert (Hy : key y <> k).
    { intros Hy. rewrite Hx, Hy, ltb_irrefl in Hlt. discriminate. }
    rewrite (filter_cons_False _ y) by done. rewrite IH.
    rewrite !(filter_cons_True _ x) by done.
    by rewrite (filter_cons_False _ y) by done.
  - rewrite (filter_cons_False _ x (y :: l)) by done.
    destruct (decide (key y = k)) as [Hy|Hy].
    + rewrite !(filter_cons_True _ y) by done. rewrite IH.
      by rewrite filter_cons_False by done.
    + rewrite !(filter_cons_False _ y) by done. rewrite IH.
      by rewrite filter_cons_False by done.
Qed.

(** X23: orders that carry the same [created_at] are listed in the order in
    which the lookup returned them. *)
Theorem equal_dates_keep_lookup_order (orders : list Order) (k : pystr) :
  filter (fun o => created_at_key o = k)
    (sorted_reverse created_at_key orders)
  = filter (fun o => created_at_key o = k) orders.
Proof.
  unfold sorted_reverse. induction orders as [|o l IH]; simpl; [done|].
  rewrite insert_desc_filter.
  destruct (decide (created_at_key o = k)).
  - rewrite !(filter_cons_True _ o) by done. by rewrite IH.
  - rewrite !(filter_cons_False _ o) by done. exact IH.
Qed.

(** X24: an order without a [created_at] (or with an empty one) is never
    listed before a dated order: after the first undated order of the
    sorted list, all orders are undated. *)
Theorem undated_orders_last (orders before after : list Order) (o : Order) :
  sorted_reverse created_at_key orders = before ++ o :: after ->
  created_at_key o = [] ->
  Forall (fun o' => created_at_key o' = []) after.
Proof.
  intros Hsplit Ho.
  pose proof (sorted_reverse_sorted created_at_key orders) as Hs.
  rewrite Hsplit in Hs. clear Hsplit.
  induction before as [|x before IH]; simpl in Hs.
  - apply StronglySorted_inv in Hs as [_ Hall].
    eapply List.Forall_impl; [|exact Hall].
    intros o' Hge. unfold key_ge in Hge. rewrite Ho in Hge. by apply ge_nil.
  - apply StronglySorted_inv in Hs as [Hs _]. by apply IH.
Qed.

Lemma undated_orders_last_witness :
  Forall (fun o' => created_at_key o' = [])
    [ {| order_id := Some 3; order_status := None;
         order_service_name := None; order_created_at := Some [] |} ].
Proof.
  refine (undated_orders_last
            [ {| order_id := Some 2; order_status := None;
                 order_service_name := None; order_created_at := None |};
              sample_order 1 "2024-01-05";
              {| order_id := Some 3; order_status := None;
                 order_service_name := None; order_created_at := Some [] |} ]
            [sample_order 1 "2024-01-05"]
            [ {| order_id := Some 3; order_status := None;
                 order_service_name := None; order_created_at := Some [] |} ]
            {| order_id := Some 2; order_status := None;
               order_service_name := None; order_created_at := None |}
            _ _); reflexivity.
Defined.

Lemma lookup_map_list {A B : Type} (f : A -> B) (l : list A) (k : nat) :
  map f l !! k = f <$> l !! k.
Proof. revert k. induction l as [|x l IH]; intros [|k]; simpl; done. Qed.

Lemma order_entries_lookup (i : Z) (l : list Order) (k : nat) :
  order_entries i l !! k
  = (fun o => {| order_number := i + Z.of_nat k; order_shown := o |})
      <$> l !! k.
Proof.
  revert i k. induction l as [|o l IH]; intros i [|k]; simpl; try done.
  - do 2 f_equal. lia.
  - rewrite IH. destruct (l !! k); simpl; [|done]. do 2 f_equal. lia.
Qed.

(** X25: the orders list shows the first [min(10, n)] orders of the sorted
    lookup result, numbered from one in the order shown, with one details
    button each in the same order; the orders shown and the orders only
    counted add up to all the orders found. *)
Theorem orders_list_counts (w : World) (orders : list Order) (e : pystr) :
  exists entries more kb,
    show_orders_list orders e w
    = (inr tt, w,
       [EReply (MsgOrdersList (Z.of_nat (length orders)) e entries more)
          (Some kb)])
    /\ length entries = Nat.min 10 (length orders)
    /\ Z.of_nat (length entries) + default 0 more
       = Z.of_nat (length orders)
    /\ (forall k entry,
          entries !! k = Some entry ->
          order_number entry = Z.of_nat k + 1
          /\ sorted_reverse created_at_key orders !! k
             = Some (order_shown entry)
          /\ kb !! k = Some [BtnOrderDetails (order_id (order_shown entry))])
    /\ drop (length entries) kb = orders_navigation.
Proof.
  set (sorted_orders := sorted_reverse created_at_key orders).
  assert (Hlen : length sorted_orders = length orders).
  { symmetry. apply Permutation_length, sorted_reverse_perm. }
  exists (order_entries 1 (take 10 sorted_orders)). eexists.
  exists (order_buttons (take 10 sorted_orders) ++ orders_navigation).
  split; [reflexivity|].
  assert (Hent : length (order_entries 1 (take 10 sorted_orders))
                 = Nat.min 10 (length orders)).
  { rewrite <- (length_map order_shown), order_entries_shown, length_take.
    by rewrite Hlen. }
  split; [exact Hent|]. split.
  { rewrite Hent. destruct (Z.ltb_spec 10 (Z.of_nat (length orders)));
      cbn -[Nat.min Z.of_nat Z.add Z.sub]; lia. }
  split.
  - intros k entry Hk. rewrite order_entries_lookup in Hk.
    apply fmap_Some in Hk as (o & Ho & ->). simpl.
    split; [lia|]. apply lookup_take_Some in Ho as [Ho Hk10].
    split; [exact Ho|].
    rewrite lookup_app_l.
    + unfold order_buttons. rewrite lookup_map_list, lookup_take_lt by done.
      by rewrite Ho.
    + unfold order_buttons. rewrite length_map, length_take.
      apply lookup_lt_Some in Ho. lia.
  - rewrite Hent. unfold order_buttons.
    rewrite drop_app_length'; [done|].
    by rewrite length_map, length_take, Hlen.
Qed.

(** ** Fields of callback data *)

Lemma split_on_cons (sep : N) (s : pystr) :
  exists piece pieces, split_on sep s = piece :: pieces.
Proof.
  induction s as [|c s (piece & pieces & IH)]; simpl; [eauto|].
  destruct (c =? sep)%N; [eauto|]. rewrite IH. eauto.
Qed.

Lemma field_first (q x : pystr) (k : nat) :
  length (split_on underscore q) = k ->
  split_on underscore (q ++ underscore :: x) !! k
  = head (split_on underscore x).
Proof.
  intros Hk. rewrite split_on_app, lookup_app_r by lia.
  rewrite Hk, Nat.sub_diag.
  by destruct (split_on underscore x).
Qed.

Lemma head_split_cut (field rest : pystr) :
  underscore ∉ field ->
  head (split_on underscore (field ++ underscore :: rest)) = Some field
  /\ head (split_on underscore field) = Some field.
Proof.
  intros Hf. rewrite split_on_app, (split_on_whole _ field Hf). done.
Qed.

(** The seven branches that cut a field out of the data, as functions of
    what follows the prefix. *)
Lemma parse_fielded (py_int : pystr -> option Z) (x : pystr) :
  let number := head (split_on underscore x) ≫= py_int in
  let word := head (split_on underscore x) in
  parse_callback py_int (lit "services_page_" ++ x)
  = cb_services_page <$> number
  /\ parse_callback py_int (lit "select_service_" ++ x)
     = cb_select_service <$> number
  /\ parse_callback py_int (lit "order_service_" ++ x)
     = cb_order_service <$> number
  /\ parse_callback py_int (lit "order_select_service_" ++ x)
     = cb_order_select_service <$> number
  /\ parse_callback py_int (lit "order_spec_material_" ++ x)
     = cb_order_spec_material <$> word
  /\ parse_callback py_int (lit "order_spec_quality_" ++ x)
     = cb_order_spec_quality <$> word
  /\ parse_callback py_int (lit "order_spec_infill_" ++ x)
     = cb_order_spec_infill <$> word
  /\ parse_callback py_int (lit "order_details_" ++ x)
     = cb_order_details <$> number.
Proof.
  intros number word. subst number word.
  unfold parse_callback, int_field, word_field. repeat split.
  - skip_tests (lit "services_page_") x.
    change (lit "services_page_" ++ x)
      with (lit "services_page" ++ underscore :: x).
    by rewrite field_first.
  - skip_tests (lit "select_service_") x.
    change (lit "select_service_" ++ x)
      with (lit "select_service" ++ underscore :: x).
    by rewrite field_first.
  - skip_tests (lit "order_service_") x.
    change (lit "order_service_" ++ x)
      with (lit "order_service" ++ underscore :: x).
    by rewrite field_first.
  - skip_tests (lit "order_select_service_") x.
    change (lit "order_select_service_" ++ x)
      with (lit "order_select_service" ++ underscore :: x).
    by rewrite field_first.
  - skip_tests (lit "order_spec_material_") x.
    change (lit "order_spec_material_" ++ x)
      with (lit "order_spec_material" ++ underscore :: x).
    by rewrite field_first.
  - skip_tests (lit "order_spec_quality_") x.
    change (lit "order_spec_quality_" ++ x)
      with (lit "order_spec_quality" ++ underscore :: x).
    by rewrite field_first.
  - skip_tests (lit "order_spec_infill_") x.
    change (lit "order_spec_infill_" ++ x)
      with (lit "order_spec_infill" ++ underscore :: x).
    by rewrite field_first.
  - skip_tests (lit "order_details_") x.
    change (lit "order_details_" ++ x)
      with (lit "order_details" ++ underscore :: x).
    by rewrite field_first.
Qed.

(** X26: in the branches that cut a field out of the callback data, only
    the text up to the next underscore counts: whatever follows a further
    underscore is ignored, so a material, quality or infill name that
    contains an underscore reaches its handler cut short, and a name
    without one reaches it whole. *)
Theorem callback_field_cut (py_int : pystr -> option Z)
    (field rest : pystr) :
  underscore ∉ field ->
  (forall prefix,
     prefix ∈ [lit "services_page_"; lit "select_service_";
               lit "order_service_"; lit "order_select_service_";
               lit "order_spec_material_"; lit "order_spec_quality_";
               lit "order_spec_infill_"; lit "order_details_"] ->
     parse_callback py_int (prefix ++ field ++ underscore :: rest)
     = parse_callback py_int (prefix ++ field))
  /\ parse_callback py_int (lit "order_spec_material_" ++ field)
     = Some (cb_order_spec_material field)
  /\ parse_callback py_int (lit "order_spec_quality_" ++ field)
     = Some (cb_order_spec_quality field)
  /\ parse_callback py_int (lit "order_spec_infill_" ++ field)
     = Some (cb_order_spec_infill field).
Proof.
  intros Hf.
  destruct (head_split_cut field rest Hf) as [Hcut Hwhole].
  pose proof (parse_fielded py_int (field ++ underscore :: rest)) as Hlong.
  pose proof (parse_fielded py_int field) as Hshort.
  cbv zeta in Hlong, Hshort. rewrite Hcut in Hlong. rewrite Hwhole in Hshort.
  destruct Hlong as (L1 & L2 & L3 & L4 & L5 & L6 & L7 & L8).
  destruct Hshort as (S1 & S2 & S3 & S4 & S5 & S6 & S7 & S8).
  split; [|by rewrite S5, S6, S7].
  intros prefix Hin.
  apply elem_of_cons in Hin as [->|Hin]; [by rewrite L1, S1|].
  apply elem_of_cons in Hin as [->|Hin]; [by rewrite L2, S2|].
  apply elem_of_cons in Hin as [->|Hin]; [by rewrite L3, S3|].
  apply elem_of_cons in Hin as [->|Hin]; [by rewrite L4, S4|].
  apply elem_of_cons in Hin as [->|Hin]; [by rewrite L5, S5|].
  apply elem_of_cons in Hin as [->|Hin]; [by rewrite L6, S6|].
  apply elem_of_cons in Hin as [->|Hin]; [by rewrite L7, S7|].
  apply elem_of_cons in Hin as [->|Hin]; [by rewrite L8, S8|].
  exfalso. revert Hin. apply not_elem_of_nil.
Qed.

Lemma callback_field_cut_witness :
  parse_callback decimal_int (lit "order_spec_material_" ++ lit "PETG")
  = Some (cb_order_spec_material (lit "PETG")).
Proof.
  refine (proj1 (proj2 (callback_field_cut decimal_int (lit "PETG") [] _))).
  vm_compute. intros H.
  repeat (apply elem_of_cons in H as [H|H]; [discriminate|]).
  by apply elem_of_nil in H.
Defined.

Example material_with_underscore :
  parse_callback decimal_int (lit "order_spec_material_carbon_fiber")
  = Some (cb_order_spec_material (lit "carbon")).
Proof. reflexivity. Qed.

(** X27: a listing of at most five services has a single page: page 0 lists
    all of it, without a page footer and with no previous-page or
    next-page button. *)
Theorem single_page_listing (services : list Service) :
  services <> [] ->
  (length services <= 5)%nat ->
  catalog_message services 0
  = MsgCatalog (catalog_entries 1 services) None
  /\ catalog_keyboard services 0
     = service_buttons services ++ [[BtnMainMenu]].
Proof.
  intros Hne Hlen.
  destruct (total_pages_bounds (Z.of_nat (length services)) ltac:(lia))
    as (H0 & Hup & Hlow).
  assert (Hpos : (0 < length services)%nat)
    by (destruct services; simpl; [done | lia]).
  assert (Htp : total_pages_of (Z.of_nat (length services)) = 1) by lia.
  assert (Hpage : page_services_of services 0 = services).
  { rewrite page_take_drop by lia. simpl. by apply take_ge. }
  unfold catalog_message, catalog_keyboard, pagination_row.
  rewrite Hpage, Htp. done.
Qed.

Lemma single_page_listing_witness :
  catalog_keyboard [sample_service 1; sample_service 2] 0
  = service_buttons [sample_service 1; sample_service 2] ++ [[BtnMainMenu]].
Proof.
  refine (proj2 (single_page_listing [sample_service 1; sample_service 2]
                   _ _)).
  - discriminate.
  - simpl. lia.
Defined.
